(** * Lights HAL of the OnePlus msm8998 devices: [light/Light.cpp]

    A shallow embedding of the light service.  The service translates
    abstract light requests into writes on sysfs control nodes.  The
    embedding keeps the program's shape: C++ [int] arithmetic is carried
    out on [Z] with the 32-bit wrap-around written out, the two
    [std::map] containers are key-ordered association lists, the
    [std::array<LightState, 3>] is a record of three slots, and the
    writes on control nodes are collected, in order, in a log that is
    threaded through a small state-and-error monad. *)

From Stdlib Require Import ZArith List String Ascii Bool Lia.
From Stdlib Require Import Permutation Sorted DecimalString.
Import ListNotations.

Local Open Scope string_scope.
Local Open Scope Z_scope.

(* ================================================================= *)
(** ** Machine integers *)

(** C++ [int] on this platform is a 32-bit two's complement integer.
    Every arithmetic result is brought back into range by [wrap];
    division truncates toward zero, and [>>] on an [int] is the
    arithmetic shift. *)
Module Int32.

Definition min_int : Z := -2147483648.
Definition max_int : Z := 2147483647.

Definition wrap (z : Z) : Z :=
  (z + 2147483648) mod 4294967296 - 2147483648.

Definition in_range (z : Z) : Prop := min_int <= z <= max_int.

Definition add (a b : Z) : Z := wrap (a + b).
Definition sub (a b : Z) : Z := wrap (a - b).
Definition mul (a b : Z) : Z := wrap (a * b).
Definition div (a b : Z) : Z := wrap (Z.quot a b).
Definition shr (a n : Z) : Z := Z.shiftr a n.
Definition and (a b : Z) : Z := Z.land a b.

End Int32.

(** [std::to_string(int)] and [operator<<(int)]: the decimal text of an
    integer, with a leading minus sign for negative values. *)
Definition to_string (z : Z) : string :=
  NilZero.string_of_int (Z.to_int z).

(* ================================================================= *)
(** ** Key-ordered maps ([std::map]) *)

(** A [std::map] keeps its entries in ascending key order, and a
    range-for loop over it visits them in that order.  The entries are
    therefore held as an association list that every operation keeps
    sorted by the key comparison [ltb]. *)
Section OrderedMap.

Context {K V : Type}.
Variable ltb : K -> K -> bool.

(** [m.emplace(k, v)]: inserts only when no entry has key [k]. *)
Fixpoint emplace (k : K) (v : V) (m : list (K * V)) : list (K * V) :=
  match m with
  | [] => [(k, v)]
  | (k', v') :: rest =>
      if ltb k k' then (k, v) :: m
      else if ltb k' k then (k', v') :: emplace k v rest
      else m
  end.

(** [m[k] = v]: inserts, or overwrites the entry of key [k]. *)
Fixpoint assign (k : K) (v : V) (m : list (K * V)) : list (K * V) :=
  match m with
  | [] => [(k, v)]
  | (k', v') :: rest =>
      if ltb k k' then (k, v) :: m
      else if ltb k' k then (k', v') :: assign k v rest
      else (k, v) :: rest
  end.

(** [m.find(k)]: [None] stands for [m.end()]. *)
Fixpoint find (k : K) (m : list (K * V)) : option V :=
  match m with
  | [] => None
  | (k', v') :: rest =>
      if ltb k k' then None
      else if ltb k' k then find k rest
      else Some v'
  end.

Definition keys (m : list (K * V)) : list K := map fst m.

End OrderedMap.

(* ================================================================= *)
(** ** Data model *)

(** [Flash]: the flash mode of a request. *)
Inductive Flash : Type := NONE | TIMED | HARDWARE.

Definition Flash_eqb (a b : Flash) : bool :=
  match a, b with
  | NONE, NONE | TIMED, TIMED | HARDWARE, HARDWARE => true
  | _, _ => false
  end.

(** [LightState]: [color] is an unsigned 32-bit ARGB word, the two
    durations are 32-bit integers, [brightnessMode] is not read by this
    service. *)
Record LightState : Type := mkLightState {
  color : Z;
  flashMode : Flash;
  flashOnMs : Z;
  flashOffMs : Z;
  brightnessMode : Z
}.

(** [Status]: the two results [setLight] produces. *)
Inductive Status : Type := SUCCESS | LIGHT_NOT_SUPPORTED.

(** [std::array<LightState, 3>]: three slots, fixed by the type. *)
Record array3 (A : Type) : Type := mkArray3 { slot0 : A; slot1 : A; slot2 : A }.
Arguments mkArray3 {A} _ _ _.
Arguments slot0 {A} _.
Arguments slot1 {A} _.
Arguments slot2 {A} _.

Section Array3.
Context {A : Type}.

(** [a.at(i)], which throws [std::out_of_range] when [i >= 3]. *)
Definition at_ (a : array3 A) (i : nat) : option A :=
  match i with
  | 0%nat => Some (slot0 a)
  | 1%nat => Some (slot1 a)
  | 2%nat => Some (slot2 a)
  | _ => None
  end.

(** [a.at(i) = x]. *)
Definition at_put (a : array3 A) (i : nat) (x : A) : option (array3 A) :=
  match i with
  | 0%nat => Some (mkArray3 x (slot1 a) (slot2 a))
  | 1%nat => Some (mkArray3 (slot0 a) x (slot2 a))
  | 2%nat => Some (mkArray3 (slot0 a) (slot1 a) x)
  | _ => None
  end.

Definition front (a : array3 A) : A := slot0 a.

(** The elements in iteration order. *)
Definition elements (a : array3 A) : list A := [slot0 a; slot1 a; slot2 a].
End Array3.

(* ================================================================= *)
(** ** Control nodes *)

(** What is streamed into a control node: [set<T>] is used at [T = int]
    and at [T = std::string]. *)
Inductive Value : Type :=
| VInt (z : Z)
| VStr (s : string).

(** The text that reaches the node. *)
Definition render (v : Value) : string :=
  match v with
  | VInt z => to_string z
  | VStr s => s
  end.

(** One write: the path of the node and the value streamed into it. *)
Definition Write : Type := (string * Value)%type.

(** What an integer read of a node yields; [None] when the stream fails
    (the node is absent, or its content is no integer). *)
Definition Sysfs : Type := string -> option Z.

(** [rgbToBrightness]. *)
Definition rgbToBrightness (state : LightState) : Z :=
  let color := Int32.wrap (Z.land (color state) 0x00ffffff) in
  Int32.shr
    (Int32.add
       (Int32.add
          (Int32.mul 77 (Int32.and (Int32.shr color 16) 0x00ff))
          (Int32.mul 150 (Int32.and (Int32.shr color 8) 0x00ff)))
       (Int32.mul 29 (Int32.and color 0x00ff)))
    8.

(* ================================================================= *)
(** ** Effects *)

(** The mutable state a handler sees: the three stored states of the
    lights that share the RGB LED, and the writes made on control nodes
    so far, oldest first. *)
Record Hal : Type := mkHal {
  mLightStates : array3 LightState;
  written : list Write
}.

(** A computation either throws ([None]) or returns a result together
    with the new state. *)
Definition M (A : Type) : Type := Hal -> option (A * Hal).

Definition ret {A : Type} (a : A) : M A := fun h => Some (a, h).

Definition bind {A B : Type} (c : M A) (k : A -> M B) : M B :=
  fun h => match c h with
           | Some (a, h') => k a h'
           | None => None
           end.

Notation "x <- c ;; k" := (bind c (fun x => k))
  (at level 61, c at next level, right associativity).
Notation "c ;; k" := (bind c (fun _ => k))
  (at level 61, right associativity).

(** A range-for loop whose body has effects only. *)
Fixpoint for_each {A : Type} (l : list A) (body : A -> M unit) : M unit :=
  match l with
  | [] => ret tt
  | x :: rest => body x ;; for_each rest body
  end.

(** A range-for loop whose body also updates a local variable. *)
Fixpoint for_each_with {A S : Type} (l : list A) (s : S)
    (body : A -> S -> M S) : M S :=
  match l with
  | [] => ret s
  | x :: rest => s' <- body x s ;; for_each_with rest s' body
  end.

(** [set(path, value)]: opens the node, streams the value into it and
    closes it. *)
Definition set (path : string) (value : Value) : M unit :=
  fun h => Some (tt, mkHal (mLightStates h) (written h ++ [(path, value)])%list).

(** [get(path, def)] at [T = int]: the integer read from the node, or
    [def] when the stream fails; extraction of a number that does not
    fit an [int] fails too. *)
Definition get (sysfs : Sysfs) (path : string) (def : Z) : Z :=
  match sysfs path with
  | Some r =>
      if (Int32.min_int <=? r) && (r <=? Int32.max_int) then r else def
  | None => def
  end.

(** [mLightStates.at(index) = state]. *)
Definition storeLightState (index : nat) (state : LightState) : M unit :=
  fun h => match at_put (mLightStates h) index state with
           | Some a => Some (tt, mkHal a (written h))
           | None => None
           end.

Definition loadLightStates : M (array3 LightState) :=
  fun h => Some (mLightStates h, h).

(* ================================================================= *)
(** ** Handlers *)

(** The first three lines of [setBacklight]: the panel's maximum
    brightness, 255 when the read fails or is negative. *)
Definition readMaxBrightness (sysfs : Sysfs) : Z :=
  let maxBrightness := get sysfs "/sys/class/leds/lcd-backlight/max_brightness" (-1) in
  if maxBrightness <? 0 then 255 else maxBrightness.

(** The scaling step of [setBacklight]. *)
Definition scaleBrightness (maxBrightness newBrightness : Z) : Z :=
  if (0 <? newBrightness) && negb (maxBrightness =? 255) then
    Int32.add
      (Int32.div
         (Int32.mul (Int32.sub maxBrightness 1) (Int32.sub newBrightness 1))
         254)
      1
  else newBrightness.

(** [Light::setBacklight]; the debug log line is left out. *)
Definition setBacklight (sysfs : Sysfs) (state : LightState) : M unit :=
  let maxBrightness := readMaxBrightness sysfs in
  let newBrightness := rgbToBrightness state in
  let newBrightness := scaleBrightness maxBrightness newBrightness in
  set "/sys/class/leds/lcd-backlight/brightness" (VInt newBrightness).

(** [Light::setButtonBacklight]. *)
Definition setButtonBacklight (state : LightState) : M unit :=
  set "/sys/class/leds/button-backlight/brightness" (VInt (rgbToBrightness state)).

(** The arbitration loop of [setRgbLight]: [stateToUse] starts as the
    front slot and is replaced by the first state met whose colour has a
    bit set among the low 24. *)
Fixpoint firstLit (states : list LightState) (stateToUse : LightState)
    : LightState :=
  match states with
  | [] => stateToUse
  | lightState :: rest =>
      if negb (Z.land (color lightState) 0xffffff =? 0) then lightState
      else firstLit rest stateToUse
  end.

Definition stateToUse (states : array3 LightState) : LightState :=
  firstLit (elements states) (front states).

Definition kRampSteps : Z := 16.
Definition kRampMaxStepDurationMs : Z := 15.

(** [colorValues]: a [std::map<std::string, int>], so its entries are
    visited in the lexicographic order of the channel names. *)
Definition colorValues (s : LightState) : list (string * Z) :=
  let m := [] in
  let m := assign String.ltb "red"
             (Int32.wrap (Z.land (Z.shiftr (color s) 16) 0xff)) m in
  let m := assign String.ltb "green"
             (Int32.wrap (Z.land (Z.shiftr (color s) 8) 0xff)) m in
  let m := assign String.ltb "blue"
             (Int32.wrap (Z.land (color s) 0xff)) m in
  m.

Definition onMs (s : LightState) : Z :=
  if Flash_eqb (flashMode s) TIMED then Int32.wrap (flashOnMs s) else 0.

Definition offMs (s : LightState) : Z :=
  if Flash_eqb (flashMode s) TIMED then Int32.wrap (flashOffMs s) else 0.

Definition makeLedPath (led op : string) : string :=
  "/sys/class/leds/" ++ led ++ "/" ++ op.

(** One entry of the duty table: [i * 512 * brightness / (255 * kRampSteps)]. *)
Definition dutyEntry (brightness i : Z) : Z :=
  Int32.div (Int32.mul (Int32.mul i 512) brightness)
            (Int32.mul 255 kRampSteps).

(** The loop of [getScaledDutyPercent], [fuel] iterations from [i] on. *)
Fixpoint dutyLoop (fuel : nat) (brightness i : Z) (output : string) : string :=
  match fuel with
  | O => output
  | S fuel' =>
      if i <=? kRampSteps then
        let output := if negb (i =? 0) then output ++ "," else output in
        let output := output ++ to_string (dutyEntry brightness i) in
        dutyLoop fuel' brightness (Int32.add i 1) output
      else output
  end.

(** [getScaledDutyPercent]; the loop runs while [i <= kRampSteps], and
    eighteen rounds of fuel let it meet that test failing. *)
Definition getScaledDutyPercent (brightness : Z) : string :=
  dutyLoop 18 brightness 0 "".

(** The timing values of the blinking branch. *)
Record Timing : Type := mkTiming { pauseLo : Z; pauseHi : Z; stepDuration : Z }.

Definition rampTiming (onMs offMs : Z) : Timing :=
  if onMs <? Int32.mul kRampMaxStepDurationMs kRampSteps then
    mkTiming offMs 0 (Int32.div onMs kRampSteps)
  else
    let stepDuration := kRampMaxStepDurationMs in
    mkTiming (Int32.sub offMs (Int32.mul kRampSteps stepDuration))
             (Int32.sub onMs (Int32.mul kRampSteps stepDuration))
             stepDuration.

(** The three parts of the write sequence of [setRgbLight]. *)
Definition disableBlink (colorValues : list (string * Z)) : M unit :=
  for_each colorValues (fun entry => set (makeLedPath (fst entry) "blink") (VInt 0)).

Definition writeRamp (colorValues : list (string * Z)) (t : Timing) : M Z :=
  for_each_with colorValues 0 (fun entry index =>
    set (makeLedPath (fst entry) "lut_flags") (VInt 95) ;;
    set (makeLedPath (fst entry) "start_idx") (VInt index) ;;
    set (makeLedPath (fst entry) "duty_pcts") (VStr (getScaledDutyPercent (snd entry))) ;;
    set (makeLedPath (fst entry) "pause_lo") (VInt (pauseLo t)) ;;
    set (makeLedPath (fst entry) "pause_hi") (VInt (pauseHi t)) ;;
    set (makeLedPath (fst entry) "ramp_step_ms") (VInt (stepDuration t)) ;;
    ret (Int32.add index (Int32.add kRampSteps 1))).

Definition startBlink (colorValues : list (string * Z)) : M unit :=
  for_each colorValues (fun entry => set (makeLedPath (fst entry) "blink") (VInt (snd entry))).

Definition staticBrightness (colorValues : list (string * Z)) : M unit :=
  for_each colorValues (fun entry => set (makeLedPath (fst entry) "brightness") (VInt (snd entry))).

(** [Light::setRgbLight].  The closing debug log line is not a control
    node write and is left out. *)
Definition setRgbLight (state : LightState) (index : nat) : M unit :=
  storeLightState index state ;;
  states <- loadLightStates ;;
  let stateToUse := stateToUse states in
  let colorValues := colorValues stateToUse in
  let onMs := onMs stateToUse in
  let offMs := offMs stateToUse in
  disableBlink colorValues ;;
  if (0 <? onMs) && (0 <? offMs) then
    writeRamp colorValues (rampTiming onMs offMs) ;;
    startBlink colorValues
  else
    staticBrightness colorValues.

(* ================================================================= *)
(** ** Dispatcher *)

(** The [Type] enumeration belongs to the lights interface and is not
    declared by this service.  A [Type] value is held as its underlying
    integer, and the five enumerators the service names are collected
    in a record. *)
Record TypeEnum : Type := mkTypeEnum {
  ATTENTION : Z;
  BACKLIGHT : Z;
  BATTERY : Z;
  BUTTONS : Z;
  NOTIFICATIONS : Z
}.

(** The enumerators in the order in which the constructor registers them. *)
Definition registrationOrder (E : TypeEnum) : list Z :=
  [ATTENTION E; BACKLIGHT E; BATTERY E; BUTTONS E; NOTIFICATIONS E].

(** The numbering of the 2.0 lights interface, whose enumeration lists
    BACKLIGHT, KEYBOARD, BUTTONS, BATTERY, NOTIFICATIONS, ATTENTION,
    BLUETOOTH, WIFI from zero on. *)
Definition lightsV2_0 : TypeEnum :=
  {| ATTENTION := 5; BACKLIGHT := 0; BATTERY := 3; BUTTONS := 2;
     NOTIFICATIONS := 4 |}.

(** A bound handler: [std::function<void(const LightState&)>]. *)
Definition Handler : Type := LightState -> M unit.

Section Dispatcher.

Variable E : TypeEnum.
Variable sysfs : Sysfs.

(** [mLights] maps a [Type] to its handler.  Its declaration lives in
    the class header; this file uses it through [emplace], [find] and
    a range-for loop.  The order in which such a container visits its
    keys is fixed by that declaration, so it is kept as a parameter:
    [rank k] places key [k] in the visiting order.  For a [std::map]
    keyed on the enumeration [rank] is the identity. *)
Variable rank : Z -> Z.

Definition visitsBefore (a b : Z) : bool := rank a <? rank b.

(** [Light::Light]. *)
Definition mLights : list (Z * Handler) :=
  let m := [] in
  let m := emplace visitsBefore (ATTENTION E) (fun state => setRgbLight state 0) m in
  let m := emplace visitsBefore (BACKLIGHT E) (fun state => setBacklight sysfs state) m in
  let m := emplace visitsBefore (BATTERY E) (fun state => setRgbLight state 2) m in
  let m := emplace visitsBefore (BUTTONS E) (fun state => setButtonBacklight state) m in
  let m := emplace visitsBefore (NOTIFICATIONS E) (fun state => setRgbLight state 1) m in
  m.

(** [Light::setLight].  The lock guard has no effect on a single
    caller and is not represented. *)
Definition setLight (type : Z) (state : LightState) : M Status :=
  match find visitsBefore type mLights with
  | None => ret LIGHT_NOT_SUPPORTED
  | Some handler => handler state ;; ret SUCCESS
  end.

(** [Light::getSupportedTypes]; the result is the vector handed to
    the callback. *)
Definition getSupportedTypes : M (list Z) :=
  for_each_with mLights [] (fun light types => ret (types ++ [fst light])%list).

End Dispatcher.

(** The visiting order of a map ordered by the enumerator values. *)
Definition byValue (k : Z) : Z := k.

(* ================================================================= *)
(** ** Reference descriptions *)

(** The colour channels of a state, by arithmetic on the colour word. *)
Definition redOf (s : LightState) : Z := (color s / 65536) mod 256.
Definition greenOf (s : LightState) : Z := (color s / 256) mod 256.
Definition blueOf (s : LightState) : Z := color s mod 256.

(** A state is lit when its colour has a bit set among the low 24. *)
Definition lit (s : LightState) : bool :=
  negb (Z.land (color s) 0xFFFFFF =? 0).

(** The duty ramp as a sequence of numbers: entry [i] of seventeen is
    [i * 512 * brightness / (255 * 16)], truncated. *)
Definition encodeDutyRamp (brightness : Z) : list Z :=
  map (fun i => Z.quot (Z.of_nat i * 512 * brightness) (255 * 16)) (seq 0 17).

(** Splitting a text at the commas. *)
Fixpoint splitCommas (s : string) (cur : string) : list string :=
  match s with
  | EmptyString => [cur]
  | String c rest =>
      if Ascii.eqb c ","%char then cur :: splitCommas rest ""
      else splitCommas rest (cur ++ String c "")
  end.

(** Reading back a comma-separated list of decimal integers. *)
Fixpoint readInts (fields : list string) : option (list Z) :=
  match fields with
  | [] => Some []
  | f :: rest =>
      match NilZero.int_of_string f, readInts rest with
      | Some d, Some zs => Some (Z.of_int d :: zs)
      | _, _ => None
      end
  end.

Definition decodeDutyPcts (text : string) : option (list Z) :=
  readInts (splitCommas text "").

(** Equality test on lists of integers. *)
Fixpoint sameInts (l1 l2 : list Z) : bool :=
  match l1, l2 with
  | [], [] => true
  | x :: r1, y :: r2 => (x =? y) && sameInts r1 r2
  | _, _ => false
  end.

(** The check that, at brightness [b], the text built by
    [getScaledDutyPercent] is the comma-joined decimal rendering of
    [encodeDutyRamp b] and reads back as that sequence. *)
Definition dutyTextAgrees (b : Z) : bool :=
  String.eqb (getScaledDutyPercent b)
             (String.concat "," (map to_string (encodeDutyRamp b)))
  && match decodeDutyPcts (getScaledDutyPercent b) with
     | Some l => sameInts l (encodeDutyRamp b)
     | None => false
     end.

(** The writes that program one channel's ramp. *)
Definition rampWritesOf (led : string) (startIdx brightness : Z) (t : Timing)
    : list Write :=
  [ (makeLedPath led "lut_flags", VInt 95);
    (makeLedPath led "start_idx", VInt startIdx);
    (makeLedPath led "duty_pcts", VStr (getScaledDutyPercent brightness));
    (makeLedPath led "pause_lo", VInt (pauseLo t));
    (makeLedPath led "pause_hi", VInt (pauseHi t));
    (makeLedPath led "ramp_step_ms", VInt (stepDuration t)) ].

(** Blink switched off on the three channels, in map order. *)
Definition blinkOff : list Write :=
  [ ("/sys/class/leds/blue/blink", VInt 0);
    ("/sys/class/leds/green/blink", VInt 0);
    ("/sys/class/leds/red/blink", VInt 0) ].

(** Blink switched on again, each channel with its intensity. *)
Definition blinkOn (s : LightState) : list Write :=
  [ ("/sys/class/leds/blue/blink", VInt (blueOf s));
    ("/sys/class/leds/green/blink", VInt (greenOf s));
    ("/sys/class/leds/red/blink", VInt (redOf s)) ].

(** One plain brightness value per channel. *)
Definition plainBrightness (s : LightState) : list Write :=
  [ ("/sys/class/leds/blue/brightness", VInt (blueOf s));
    ("/sys/class/leds/green/brightness", VInt (greenOf s));
    ("/sys/class/leds/red/brightness", VInt (redOf s)) ].

(** The write sequence of a blinking update. *)
Definition blinkSequence (s : LightState) (t : Timing) : list Write :=
  (blinkOff
   ++ rampWritesOf "blue" 0 (blueOf s) t
   ++ rampWritesOf "green" 17 (greenOf s) t
   ++ rampWritesOf "red" 34 (redOf s) t
   ++ blinkOn s)%list.

(** The write sequence of a static update. *)
Definition staticSequence (s : LightState) : list Write :=
  (blinkOff ++ plainBrightness s)%list.

(** The writes of [setRgbLight] once the active state is known. *)
Definition rgbSequence (s : LightState) : list Write :=
  if (0 <? onMs s) && (0 <? offMs s)
  then blinkSequence s (rampTiming (onMs s) (offMs s))
  else staticSequence s.

(** Ascending visiting order of the keys of a map. *)
Definition ordered {V : Type} (rank : Z -> Z) (m : list (Z * V)) : Prop :=
  StronglySorted (fun a b => rank a < rank b) (keys m).

(** The paths of the look-up table nodes. *)
Definition isLutPath (path : string) : bool :=
  existsb (fun led =>
    existsb (fun op => String.eqb path (makeLedPath led op))
      ["lut_flags"; "start_idx"; "duty_pcts"; "pause_lo"; "pause_hi"; "ramp_step_ms"])
    ["blue"; "green"; "red"].


(** The number of entries of the look-up table, as the comment in
    [setRgbLight] gives it. *)
Definition lutEntries : Z := 63.

(* ================================================================= *)
(** ** Facts on machine integers *)

Lemma wrap_small (z : Z) :
  Int32.min_int <= z <= Int32.max_int -> Int32.wrap z = z.
Proof.
  unfold Int32.min_int, Int32.max_int, Int32.wrap. intros Hz.
  rewrite Z.mod_small by lia. lia.
Qed.

Ltac int_range := unfold Int32.min_int, Int32.max_int in *; lia.

Lemma wrap_in_range (z : Z) : Int32.in_range (Int32.wrap z).
Proof.
  unfold Int32.in_range, Int32.min_int, Int32.max_int, Int32.wrap.
  pose proof (Z.mod_pos_bound (z + 2147483648) 4294967296). lia.
Qed.

Lemma land_low24 (c : Z) : Z.land c 0xffffff = c mod 16777216.
Proof. change 0xffffff with (Z.ones 24). now rewrite Z.land_ones. Qed.

Lemma land_low8 (c : Z) : Z.land c 0xff = c mod 256.
Proof. change 0xff with (Z.ones 8). now rewrite Z.land_ones. Qed.

Lemma shiftr_16 (c : Z) : Z.shiftr c 16 = c / 65536.
Proof. now rewrite Z.shiftr_div_pow2. Qed.

Lemma shiftr_8 (c : Z) : Z.shiftr c 8 = c / 256.
Proof. now rewrite Z.shiftr_div_pow2. Qed.

(** The three channel bytes read off the masked colour are the channel
    bytes of the colour itself. *)
Lemma channel_red (c : Z) : (c mod 16777216 / 65536) mod 256 = (c / 65536) mod 256.
Proof. Z.div_mod_to_equations. lia. Qed.

Lemma channel_green (c : Z) : (c mod 16777216 / 256) mod 256 = (c / 256) mod 256.
Proof. Z.div_mod_to_equations. lia. Qed.

Lemma channel_blue (c : Z) : (c mod 16777216) mod 256 = c mod 256.
Proof. Z.div_mod_to_equations. lia. Qed.

Lemma byte_bounds (z : Z) : 0 <= z mod 256 <= 255.
Proof. pose proof (Z.mod_pos_bound z 256). lia. Qed.

Lemma redOf_bounds (s : LightState) : 0 <= redOf s <= 255.
Proof. apply byte_bounds. Qed.

Lemma greenOf_bounds (s : LightState) : 0 <= greenOf s <= 255.
Proof. apply byte_bounds. Qed.

Lemma blueOf_bounds (s : LightState) : 0 <= blueOf s <= 255.
Proof. apply byte_bounds. Qed.

(** [rgbToBrightness] in plain arithmetic. *)
Lemma rgbToBrightness_arith (s : LightState) :
  rgbToBrightness s = (77 * redOf s + 150 * greenOf s + 29 * blueOf s) / 256.
Proof.
  unfold rgbToBrightness, Int32.shr, Int32.add, Int32.mul, Int32.and.
  rewrite land_low24.
  rewrite (wrap_small (color s mod 16777216))
    by (unfold Int32.min_int, Int32.max_int;
        pose proof (Z.mod_pos_bound (color s) 16777216); lia).
  rewrite !land_low8, shiftr_16, !shiftr_8.
  rewrite channel_red, channel_green, channel_blue.
  fold (redOf s) (greenOf s) (blueOf s).
  pose proof (redOf_bounds s). pose proof (greenOf_bounds s).
  pose proof (blueOf_bounds s).
  rewrite (wrap_small (77 * redOf s)) by int_range.
  rewrite (wrap_small (150 * greenOf s)) by int_range.
  rewrite (wrap_small (29 * blueOf s)) by int_range.
  rewrite (wrap_small (77 * redOf s + 150 * greenOf s)) by int_range.
  rewrite wrap_small by int_range.
  reflexivity.
Qed.

Lemma rgbToBrightness_bounds (s : LightState) : 0 <= rgbToBrightness s <= 255.
Proof.
  rewrite rgbToBrightness_arith.
  pose proof (redOf_bounds s). pose proof (greenOf_bounds s).
  pose proof (blueOf_bounds s).
  split.
  - apply Z.div_pos; lia.
  - apply Z.lt_succ_r. apply Z.div_lt_upper_bound; lia.
Qed.

(* ================================================================= *)
(** ** Brightness conversion *)

(** C4.  Luma conversion: for every colour word, hence for every 32-bit
    colour, [rgbToBrightness] is [(77*R + 150*G + 29*B) >> 8] on the
    channel bytes R, G, B of the low 24 bits; it reads nothing but the
    low 24 bits of the colour; it lies in [0, 255]; and it sends
    0x000000 to 0, 0xFFFFFF to 255 and 0xFF0000 to 76. *)
Theorem luma_conversion (c : Z) (fm : Flash) (on off bm : Z) :
  let s := mkLightState c fm on off bm in
  rgbToBrightness s
    = Z.shiftr (77 * redOf s + 150 * greenOf s + 29 * blueOf s) 8
  /\ rgbToBrightness s
     = rgbToBrightness (mkLightState (Z.land c 0xFFFFFF) NONE 0 0 0)
  /\ 0 <= rgbToBrightness s <= 255
  /\ rgbToBrightness (mkLightState 0x000000 fm on off bm) = 0
  /\ rgbToBrightness (mkLightState 0xFFFFFF fm on off bm) = 255
  /\ rgbToBrightness (mkLightState 0xFF0000 fm on off bm) = 76.
Proof.
  intros s. split; [| split; [| split]].
  - rewrite rgbToBrightness_arith, shiftr_8. reflexivity.
  - rewrite !rgbToBrightness_arith. unfold redOf, greenOf, blueOf, s; simpl color.
    rewrite land_low24.
    rewrite channel_red, channel_green, channel_blue. reflexivity.
  - apply rgbToBrightness_bounds.
  - repeat split; reflexivity.
Qed.

(* ================================================================= *)
(** ** The RGB handler *)

Lemma colorValues_entries (s : LightState) :
  colorValues s = [("blue", blueOf s); ("green", greenOf s); ("red", redOf s)].
Proof.
  unfold colorValues. rewrite !land_low8, shiftr_16, shiftr_8.
  fold (redOf s) (greenOf s) (blueOf s).
  pose proof (redOf_bounds s). pose proof (greenOf_bounds s).
  pose proof (blueOf_bounds s).
  rewrite !wrap_small by int_range.
  reflexivity.
Qed.

Lemma setRgbLight_run (state : LightState) (index : nat) (h : Hal)
    (a : array3 LightState) :
  at_put (mLightStates h) index state = Some a ->
  setRgbLight state index h
    = Some (tt, mkHal a (written h ++ rgbSequence (stateToUse a))).
Proof.
  intros Hput. unfold setRgbLight, bind, storeLightState, loadLightStates.
  rewrite Hput. cbn [mLightStates written].
  rewrite colorValues_entries. unfold rgbSequence.
  destruct ((0 <? onMs (stateToUse a)) && (0 <? offMs (stateToUse a))).
  - unfold disableBlink, writeRamp, startBlink, blinkSequence, rampWritesOf.
    cbn [for_each for_each_with bind set ret fst snd mLightStates written].
    change (Int32.add 0 (Int32.add kRampSteps 1)) with 17.
    change (Int32.add 17 (Int32.add kRampSteps 1)) with 34.
    repeat rewrite <- app_assoc. reflexivity.
  - unfold disableBlink, staticBrightness, staticSequence.
    cbn [for_each bind set ret fst snd mLightStates written].
    repeat rewrite <- app_assoc. reflexivity.
Qed.

Lemma setRgbLight_throws (state : LightState) (index : nat) (h : Hal) :
  at_put (mLightStates h) index state = None ->
  setRgbLight state index h = None.
Proof.
  intros Hput. unfold setRgbLight, bind, storeLightState. now rewrite Hput.
Qed.

Lemma at_put_in_range {A : Type} (a : array3 A) (index : nat) (x : A) :
  (index < 3)%nat -> exists a', at_put a index x = Some a'.
Proof.
  intros Hi. destruct index as [|[|[|n]]]; cbn; eauto. lia.
Qed.

(* ================================================================= *)
(** ** Facts on key-ordered maps *)

Section OrderedMapFacts.

Context {V : Type}.
Variable rank : Z -> Z.
Hypothesis rank_inj : forall a b, rank a = rank b -> a = b.

Local Abbreviation ltb := (visitsBefore rank).

Lemma ltb_spec (a b : Z) : ltb a b = true <-> rank a < rank b.
Proof. unfold ltb, visitsBefore. apply Z.ltb_lt. Qed.

Lemma ltb_neither (a b : Z) : ltb a b = false -> ltb b a = false -> a = b.
Proof.
  unfold ltb, visitsBefore. intros H1 H2.
  apply Z.ltb_ge in H1. apply Z.ltb_ge in H2. apply rank_inj. lia.
Qed.

Lemma ltb_irrefl (a : Z) : ltb a a = false.
Proof. unfold ltb, visitsBefore. apply Z.ltb_irrefl. Qed.

Lemma emplace_keeps (k : Z) (v : V) (m : list (Z * V)) (x : Z * V) :
  In x m -> In x (emplace ltb k v m).
Proof.
  induction m as [|[k' v'] rest IH]; cbn; [tauto|].
  intros Hin. destruct (ltb k k'); [right; exact Hin|].
  destruct (ltb k' k); [|exact Hin].
  destruct Hin as [<-|Hin]; [left; reflexivity|right; auto].
Qed.

Lemma emplace_adds (k : Z) (v : V) (m : list (Z * V)) :
  ~ In k (keys m) -> In (k, v) (emplace ltb k v m).
Proof.
  induction m as [|[k' v'] rest IH]; cbn; [tauto|].
  intros Hnot. destruct (ltb k k') eqn:H1; [left; reflexivity|].
  destruct (ltb k' k) eqn:H2.
  - right. apply IH. tauto.
  - exfalso. apply Hnot. left. symmetry. now apply ltb_neither.
Qed.

Lemma emplace_keys (k : Z) (v : V) (m : list (Z * V)) :
  ~ In k (keys m) -> Permutation (k :: keys m) (keys (emplace ltb k v m)).
Proof.
  induction m as [|[k' v'] rest IH]; cbn; [reflexivity|].
  intros Hnot. destruct (ltb k k') eqn:H1; [reflexivity|].
  destruct (ltb k' k) eqn:H2.
  - cbn. rewrite perm_swap. apply perm_skip. apply IH. tauto.
  - exfalso. apply Hnot. left. symmetry. now apply ltb_neither.
Qed.

Lemma emplace_key_cases (k : Z) (v : V) (m : list (Z * V)) (x : Z) :
  In x (keys (emplace ltb k v m)) -> x = k \/ In x (keys m).
Proof.
  induction m as [|[k' v'] rest IH]; cbn.
  - intros [<-|[]]. now left.
  - destruct (ltb k k'); cbn.
    + intros [<-|Hin]; [now left|now right].
    + destruct (ltb k' k); cbn; [|now right].
      intros [<-|Hin]; [right; now left|].
      destruct (IH Hin); [now left|right; now right].
Qed.

Lemma emplace_ordered (k : Z) (v : V) (m : list (Z * V)) :
  ordered rank m -> ordered rank (emplace ltb k v m).
Proof.
  unfold ordered. induction m as [|[k' v'] rest IH]; cbn; intros Hs.
  - repeat constructor.
  - destruct (ltb k k') eqn:H1.
    + apply ltb_spec in H1. inversion Hs as [|? ? Hs' Hall]; subst.
      cbn. constructor; [exact Hs|].
      constructor; [exact H1|].
      rewrite Forall_forall in *. intros y Hy. specialize (Hall y Hy). lia.
    + destruct (ltb k' k) eqn:H2; [|exact Hs].
      apply ltb_spec in H2. inversion Hs as [|? ? Hs' Hall]; subst.
      cbn. constructor; [apply IH; exact Hs'|].
      rewrite Forall_forall in *. intros y Hy.
      destruct (emplace_key_cases _ _ _ _ Hy) as [->|Hy']; [exact H2|auto].
Qed.

Lemma find_ordered (k : Z) (v : V) (m : list (Z * V)) :
  ordered rank m -> In (k, v) m -> find ltb k m = Some v.
Proof.
  unfold ordered. induction m as [|[k' v'] rest IH]; cbn; [tauto|].
  intros Hs Hin. inversion Hs as [|? ? Hs' Hall]; subst.
  destruct Hin as [Heq|Hin].
  - inversion Heq; subst. now rewrite ltb_irrefl.
  - assert (Hlt : rank k' < rank k).
    { rewrite Forall_forall in Hall. apply Hall.
      change k with (fst (k, v)). now apply in_map. }
    assert (H1 : ltb k k' = false)
      by (unfold ltb, visitsBefore; apply Z.ltb_ge; lia).
    assert (H2 : ltb k' k = true) by now apply ltb_spec.
    rewrite H1, H2. auto.
Qed.

Lemma find_absent (k : Z) (m : list (Z * V)) :
  ~ In k (keys m) -> find ltb k m = None.
Proof.
  induction m as [|[k' v'] rest IH]; cbn; [reflexivity|].
  intros Hnot. destruct (ltb k k') eqn:H1; [reflexivity|].
  destruct (ltb k' k) eqn:H2; [apply IH; tauto|].
  exfalso. apply Hnot. left. symmetry. now apply ltb_neither.
Qed.

End OrderedMapFacts.

(* ================================================================= *)
(** ** The handler registry *)

Lemma collect_keys {V : Type} (m : list (Z * V)) (acc : list Z) (h : Hal) :
  for_each_with m acc (fun light types => ret (types ++ [fst light])%list) h
    = Some ((acc ++ keys m)%list, h).
Proof.
  revert acc. induction m as [|[k v] rest IH]; intros acc; cbn.
  - unfold ret. now rewrite app_nil_r.
  - unfold bind, ret at 1. rewrite IH. cbn. now rewrite <- app_assoc.
Qed.

Section Registry.

Variable E : TypeEnum.
Variable sysfs : Sysfs.
Variable rank : Z -> Z.
Hypothesis rank_inj : forall a b, rank a = rank b -> a = b.
Hypothesis distinct : NoDup (registrationOrder E).

Local Abbreviation registry := (mLights E sysfs rank).

Lemma registry_ordered : ordered rank registry.
Proof.
  unfold registry, mLights.
  repeat apply emplace_ordered; try assumption. constructor.
Qed.

Lemma registry_keys : Permutation (registrationOrder E) (keys registry).
Proof.
  pose proof distinct as Hd. unfold registrationOrder in Hd.
  inversion Hd as [|? ? Ha Hd1]; subst. inversion Hd1 as [|? ? Hb Hd2]; subst.
  inversion Hd2 as [|? ? Hc Hd3]; subst. inversion Hd3 as [|? ? Hd' Hd4]; subst.
  inversion Hd4 as [|? ? He _]; subst.
  unfold registry, mLights, registrationOrder.
  set (m1 := emplace (visitsBefore rank) (ATTENTION E) _ []).
  set (m2 := emplace (visitsBefore rank) (BACKLIGHT E) _ m1).
  set (m3 := emplace (visitsBefore rank) (BATTERY E) _ m2).
  set (m4 := emplace (visitsBefore rank) (BUTTONS E) _ m3).
  assert (P1 : Permutation [ATTENTION E] (keys m1)) by reflexivity.
  assert (P2 : Permutation [BACKLIGHT E; ATTENTION E] (keys m2)).
  { etransitivity; [apply perm_skip, P1|]. apply emplace_keys; [assumption|].
    intros Hin. apply (Permutation_in _ (Permutation_sym P1)) in Hin.
    cbn in *. intuition congruence. }
  assert (P3 : Permutation [BATTERY E; BACKLIGHT E; ATTENTION E] (keys m3)).
  { etransitivity; [apply perm_skip, P2|]. apply emplace_keys; [assumption|].
    intros Hin. apply (Permutation_in _ (Permutation_sym P2)) in Hin.
    cbn in *. intuition congruence. }
  assert (P4 : Permutation
                 [BUTTONS E; BATTERY E; BACKLIGHT E; ATTENTION E] (keys m4)).
  { etransitivity; [apply perm_skip, P3|]. apply emplace_keys; [assumption|].
    intros Hin. apply (Permutation_in _ (Permutation_sym P3)) in Hin.
    cbn in *. intuition congruence. }
  assert (P5 : Permutation
                 [NOTIFICATIONS E; BUTTONS E; BATTERY E; BACKLIGHT E; ATTENTION E]
                 (keys (emplace (visitsBefore rank) (NOTIFICATIONS E)
                          (fun state => setRgbLight state 1) m4))).
  { etransitivity; [apply perm_skip, P4|]. apply emplace_keys; try assumption.
    intros Hin. apply (Permutation_in _ (Permutation_sym P4)) in Hin.
    cbn in *. intuition congruence. }
  etransitivity; [|exact P5].
  change [ATTENTION E; BACKLIGHT E; BATTERY E; BUTTONS E; NOTIFICATIONS E]
    with (rev [NOTIFICATIONS E; BUTTONS E; BATTERY E; BACKLIGHT E; ATTENTION E]).
  symmetry. apply Permutation_rev.
Qed.

Lemma registry_has (k : Z) (handler : Handler) :
  In (k, handler) registry -> find (visitsBefore rank) k registry = Some handler.
Proof. intros Hin. apply find_ordered; [apply registry_ordered|exact Hin]. Qed.

Lemma not_in_keys {V : Type} (k : Z) (m : list (Z * V)) (l : list Z) :
  Permutation l (keys m) -> ~ In k l -> ~ In k (keys m).
Proof.
  intros P Hn Hin. apply Hn.
  now apply (Permutation_in _ (Permutation_sym P)).
Qed.

(** What [find] answers on each registered type. *)
Lemma registry_bindings :
  let lookup k := find (visitsBefore rank) k registry in
  lookup (ATTENTION E) = Some (fun state => setRgbLight state 0)
  /\ lookup (BACKLIGHT E) = Some (fun state => setBacklight sysfs state)
  /\ lookup (BATTERY E) = Some (fun state => setRgbLight state 2)
  /\ lookup (BUTTONS E) = Some (fun state => setButtonBacklight state)
  /\ lookup (NOTIFICATIONS E) = Some (fun state => setRgbLight state 1).
Proof.
  pose proof distinct as Hd. unfold registrationOrder in Hd.
  inversion Hd as [|? ? Ha Hd1]; subst. inversion Hd1 as [|? ? Hb Hd2]; subst.
  inversion Hd2 as [|? ? Hc Hd3]; subst. inversion Hd3 as [|? ? Hd' Hd4]; subst.
  inversion Hd4 as [|? ? He _]; subst.
  cbn zeta. unfold registry, mLights.
  set (m1 := emplace (visitsBefore rank) (ATTENTION E) _ []).
  set (m2 := emplace (visitsBefore rank) (BACKLIGHT E) _ m1).
  set (m3 := emplace (visitsBefore rank) (BATTERY E) _ m2).
  set (m4 := emplace (visitsBefore rank) (BUTTONS E) _ m3).
  set (m5 := emplace (visitsBefore rank) (NOTIFICATIONS E) _ m4).
  assert (O5 : ordered rank m5) by apply registry_ordered.
  assert (K1 : forall x, In x (keys m1) -> x = ATTENTION E).
  { intros x Hx. cbn in Hx. intuition congruence. }
  assert (K2 : forall x, In x (keys m2) -> x = BACKLIGHT E \/ x = ATTENTION E).
  { intros x Hx. apply emplace_key_cases in Hx. destruct Hx; auto. }
  assert (K3 : forall x, In x (keys m3) ->
               x = BATTERY E \/ x = BACKLIGHT E \/ x = ATTENTION E).
  { intros x Hx. apply emplace_key_cases in Hx. destruct Hx; auto. }
  assert (K4 : forall x, In x (keys m4) ->
               x = BUTTONS E \/ x = BATTERY E \/ x = BACKLIGHT E \/ x = ATTENTION E).
  { intros x Hx. apply emplace_key_cases in Hx. destruct Hx; auto. }
  assert (I1 : In (ATTENTION E, fun state => setRgbLight state 0) m1)
    by (left; reflexivity).
  assert (I2 : In (BACKLIGHT E, fun state => setBacklight sysfs state) m2).
  { apply emplace_adds; [assumption|]. intros Hx. apply K1 in Hx.
    cbn in *. intuition congruence. }
  assert (I3 : In (BATTERY E, fun state => setRgbLight state 2) m3).
  { apply emplace_adds; [assumption|]. intros Hx. apply K2 in Hx.
    cbn in *. intuition congruence. }
  assert (I4 : In (BUTTONS E, fun state => setButtonBacklight state) m4).
  { apply emplace_adds; [assumption|]. intros Hx. apply K3 in Hx.
    cbn in *. intuition congruence. }
  assert (I5 : In (NOTIFICATIONS E, fun state => setRgbLight state 1) m5).
  { apply emplace_adds; [assumption|]. intros Hx. apply K4 in Hx.
    cbn in *. intuition congruence. }
  repeat split; apply find_ordered; try assumption;
    unfold m5, m4, m3, m2; repeat (first [assumption | apply emplace_keeps]).
Qed.

End Registry.

(* ================================================================= *)
(** ** Arbitration *)

Lemma lit_false (s : LightState) :
  lit s = false <-> Z.land (color s) 0xFFFFFF = 0.
Proof.
  unfold lit. rewrite negb_false_iff. apply Z.eqb_eq.
Qed.

Lemma lit_true (s : LightState) :
  lit s = true <-> Z.land (color s) 0xFFFFFF <> 0.
Proof.
  unfold lit. rewrite negb_true_iff. apply Z.eqb_neq.
Qed.

Lemma stateToUse_find (a : array3 LightState) :
  stateToUse a
    = match List.find lit (elements a) with Some s => s | None => slot0 a end.
Proof.
  unfold stateToUse, front, elements. cbn [firstLit List.find].
  fold (lit (slot0 a)) (lit (slot1 a)) (lit (slot2 a)).
  destruct (lit (slot0 a)), (lit (slot1 a)), (lit (slot2 a)); reflexivity.
Qed.

Lemma stateToUse_position (a : array3 LightState) :
  exists i,
    (i < 3)%nat
    /\ at_ a i = Some (stateToUse a)
    /\ (forall j s, (j < i)%nat -> at_ a j = Some s ->
          Z.land (color s) 0xFFFFFF = 0)
    /\ (Z.land (color (stateToUse a)) 0xFFFFFF <> 0
        \/ (i = 0%nat /\ forall j s, at_ a j = Some s ->
              Z.land (color s) 0xFFFFFF = 0)).
Proof.
  rewrite stateToUse_find. unfold elements. cbn [List.find].
  destruct (lit (slot0 a)) eqn:L0; [|destruct (lit (slot1 a)) eqn:L1;
    [|destruct (lit (slot2 a)) eqn:L2]].
  - exists 0%nat. repeat split; [lia| |left; now apply lit_true]. intros; lia.
  - exists 1%nat. repeat split; [lia| |left; now apply lit_true].
    intros j s Hj Hs. assert (j = 0%nat) by lia. subst j.
    cbn in Hs. inversion Hs; subst. now apply lit_false.
  - exists 2%nat. repeat split; [lia| |left; now apply lit_true].
    intros j s Hj Hs. destruct j as [|[|j]]; [| |lia];
      cbn in Hs; inversion Hs; subst; now apply lit_false.
  - exists 0%nat. repeat split; [lia| |right; split; [reflexivity|]].
    + intros; lia.
    + intros j s Hs. destruct j as [|[|[|j]]]; cbn in Hs; inversion Hs; subst;
        now apply lit_false.
Qed.

Lemma at_put_effect {A : Type} (a a' : array3 A) (index : nat) (x : A) :
  at_put a index x = Some a' ->
  at_ a' index = Some x
  /\ forall j, j <> index -> at_ a' j = at_ a j.
Proof.
  destruct index as [|[|[|n]]]; cbn; intros H; inversion H; subst; clear H;
    (split; [reflexivity|]); intros [|[|[|j]]] Hj; cbn; congruence.
Qed.

(** C1.  Arbitration for the shared RGB LED.  The constructor binds
    Attention to slot 0, Notifications to slot 1 and Battery to slot 2.
    A call of [setRgbLight] on a slot replaces the state stored there
    and leaves the other two; the state that then drives the writes is
    the first of the three slots, scanned in that order, whose colour
    is nonzero in its low 24 bits, and the state of slot 0 when all
    three are zero there.  With colours 0x000000, 0x00FF00, 0xFF0000
    in slots 0, 1, 2 it is the state of slot 1. *)
Theorem arbitration_first_lit (E : TypeEnum) (sysfs : Sysfs) (rank : Z -> Z)
    (state : LightState) (index : nat) (h : Hal) :
  (forall x y, rank x = rank y -> x = y) ->
  NoDup (registrationOrder E) ->
  (index < 3)%nat ->
  (setLight E sysfs rank (ATTENTION E) state h
     = (setRgbLight state 0 ;; ret SUCCESS) h
   /\ setLight E sysfs rank (NOTIFICATIONS E) state h
      = (setRgbLight state 1 ;; ret SUCCESS) h
   /\ setLight E sysfs rank (BATTERY E) state h
      = (setRgbLight state 2 ;; ret SUCCESS) h)
  /\ (exists a,
        at_put (mLightStates h) index state = Some a
        /\ at_ a index = Some state
        /\ (forall j, j <> index -> at_ a j = at_ (mLightStates h) j)
        /\ setRgbLight state index h
           = Some (tt, mkHal a (written h ++ rgbSequence (stateToUse a)))
        /\ stateToUse a
           = match List.find lit (elements a) with
             | Some s => s
             | None => slot0 a
             end
        /\ exists i,
             (i < 3)%nat
             /\ at_ a i = Some (stateToUse a)
             /\ (forall j s, (j < i)%nat -> at_ a j = Some s ->
                   Z.land (color s) 0xFFFFFF = 0)
             /\ (Z.land (color (stateToUse a)) 0xFFFFFF <> 0
                 \/ (i = 0%nat /\ forall j s, at_ a j = Some s ->
                       Z.land (color s) 0xFFFFFF = 0)))
  /\ (forall f0 on0 off0 b0 f1 on1 off1 b1 f2 on2 off2 b2,
        stateToUse (mkArray3 (mkLightState 0x000000 f0 on0 off0 b0)
                             (mkLightState 0x00FF00 f1 on1 off1 b1)
                             (mkLightState 0xFF0000 f2 on2 off2 b2))
          = mkLightState 0x00FF00 f1 on1 off1 b1).
Proof.
  intros Hinj Hdistinct Hindex. split; [|split].
  - destruct (registry_bindings E sysfs rank Hinj Hdistinct)
      as (Ha & _ & Hb & _ & Hn).
    unfold setLight. cbn zeta in Ha, Hb, Hn. rewrite Ha, Hb, Hn.
    repeat split; reflexivity.
  - destruct (at_put_in_range (mLightStates h) index state Hindex) as [a Ha].
    exists a. destruct (at_put_effect _ _ _ _ Ha) as [Hset Hkeep].
    split; [exact Ha|]. split; [exact Hset|]. split; [exact Hkeep|].
    split; [now apply setRgbLight_run|].
    split; [apply stateToUse_find|apply stateToUse_position].
  - intros. reflexivity.
Qed.

Ltac distinct_values :=
  repeat (apply NoDup_cons; [cbn; intuition discriminate|]); apply NoDup_nil.

Lemma arbitration_first_lit_witness :
  setLight lightsV2_0 (fun _ => None) byValue (ATTENTION lightsV2_0)
    (mkLightState 0x00FF00 NONE 0 0 0)
    (mkHal (mkArray3 (mkLightState 0 NONE 0 0 0)
                     (mkLightState 0 NONE 0 0 0)
                     (mkLightState 0xFF0000 NONE 0 0 0)) [])
  = (setRgbLight (mkLightState 0x00FF00 NONE 0 0 0) 0 ;; ret SUCCESS)
      (mkHal (mkArray3 (mkLightState 0 NONE 0 0 0)
                       (mkLightState 0 NONE 0 0 0)
                       (mkLightState 0xFF0000 NONE 0 0 0)) []).
Proof.
  refine (proj1 (proj1 (arbitration_first_lit lightsV2_0 (fun _ => None) byValue
            (mkLightState 0x00FF00 NONE 0 0 0) 1
            (mkHal (mkArray3 (mkLightState 0 NONE 0 0 0)
                             (mkLightState 0 NONE 0 0 0)
                             (mkLightState 0xFF0000 NONE 0 0 0)) [])
            _ _ _))).
  - intros x y Hxy. exact Hxy.
  - unfold registrationOrder, lightsV2_0; cbn. distinct_values.
  - lia.
Defined.

(* ================================================================= *)
(** ** Blink timing and the write sequence *)

Lemma onMs_in_range (s : LightState) : Int32.in_range (onMs s).
Proof.
  unfold onMs. destruct (Flash_eqb (flashMode s) TIMED).
  - apply wrap_in_range.
  - unfold Int32.in_range. int_range.
Qed.

Lemma offMs_in_range (s : LightState) : Int32.in_range (offMs s).
Proof.
  unfold offMs. destruct (Flash_eqb (flashMode s) TIMED).
  - apply wrap_in_range.
  - unfold Int32.in_range. int_range.
Qed.

Lemma rampTiming_short (on off : Z) :
  Int32.in_range on -> 0 < on -> on < 240 ->
  rampTiming on off = mkTiming off 0 (Z.quot on 16).
Proof.
  unfold Int32.in_range. intros Hr Hpos Hlt. unfold rampTiming.
  change (Int32.mul kRampMaxStepDurationMs kRampSteps) with 240.
  destruct (Z.ltb_spec on 240) as [_|]; [|lia].
  unfold Int32.div, kRampSteps. rewrite wrap_small; [reflexivity|].
  assert (0 <= Z.quot on 16 <= on)
    by (rewrite Z.quot_div_nonneg by lia; Z.div_mod_to_equations; lia).
  int_range.
Qed.

Lemma rampTiming_long (on off : Z) :
  Int32.in_range on -> Int32.in_range off -> 240 <= on -> 0 < off ->
  rampTiming on off = mkTiming (off - 240) (on - 240) 15.
Proof.
  unfold Int32.in_range. intros Hon Hoff Hge Hpos. unfold rampTiming.
  change (Int32.mul kRampMaxStepDurationMs kRampSteps) with 240.
  destruct (Z.ltb_spec on 240) as [|_]; [lia|].
  cbn zeta. change (Int32.mul kRampSteps kRampMaxStepDurationMs) with 240.
  unfold Int32.sub. rewrite !wrap_small by int_range. reflexivity.
Qed.

Lemma static_has_no_lut_write (s : LightState) :
  forallb (fun w => negb (isLutPath (fst w))) (staticSequence s) = true.
Proof. reflexivity. Qed.

(** C2.  Blink timing encoding.  Let [on] and [off] be the durations of
    the active state.  When both are positive the ramp is programmed
    with (stepDuration, pauseHi, pauseLo) = (on / 16 truncated, 0, off)
    if [15 * 16 > on], and with (15, on - 16*15, off - 16*15)
    otherwise.  When either is zero nothing is encoded: the update is
    the static one, a plain brightness per channel and no write on a
    look-up table node. *)
Theorem blink_timing_encoding (state : LightState) (index : nat) (h : Hal)
    (a : array3 LightState) :
  at_put (mLightStates h) index state = Some a ->
  let s := stateToUse a in
  let on := onMs s in
  let off := offMs s in
  (0 < on -> 0 < off ->
     rampTiming on off
       = (if 15 * 16 >? on
          then {| stepDuration := Z.quot on 16; pauseHi := 0; pauseLo := off |}
          else {| stepDuration := 15; pauseHi := on - 16 * 15;
                  pauseLo := off - 16 * 15 |})
     /\ setRgbLight state index h
        = Some (tt, mkHal a (written h ++ blinkSequence s (rampTiming on off))))
  /\ (on = 0 \/ off = 0 ->
        setRgbLight state index h
          = Some (tt, mkHal a (written h ++ blinkOff ++ plainBrightness s))
        /\ forallb (fun w => negb (isLutPath (fst w)))
             (blinkOff ++ plainBrightness s) = true).
Proof.
  intros Hput s on off.
  pose proof (setRgbLight_run state index h a Hput) as Hrun.
  fold s in Hrun. unfold rgbSequence in Hrun. fold on off in Hrun.
  pose proof (onMs_in_range s) as Hon. pose proof (offMs_in_range s) as Hoff.
  fold on in Hon. fold off in Hoff.
  split.
  - intros Hp Hq. split.
    + rewrite Z.gtb_ltb. change (15 * 16) with 240. change (16 * 15) with 240.
      destruct (Z.ltb_spec on 240).
      * now apply rampTiming_short.
      * now apply rampTiming_long.
    + destruct (Z.ltb_spec 0 on); [|lia]. destruct (Z.ltb_spec 0 off); [|lia].
      exact Hrun.
  - intros Hzero. split; [|apply static_has_no_lut_write].
    assert (Hc : (0 <? on) && (0 <? off) = false).
    { apply andb_false_iff. destruct Hzero as [->| ->]; [left|right]; reflexivity. }
    rewrite Hc in Hrun. exact Hrun.
Qed.

Lemma blink_timing_encoding_witness :
  rampTiming 100 300 = {| stepDuration := 6; pauseHi := 0; pauseLo := 300 |}.
Proof.
  refine (proj1 (proj1 (blink_timing_encoding
            (mkLightState 0x00FF00 TIMED 100 300 0) 1
            (mkHal (mkArray3 (mkLightState 0 NONE 0 0 0)
                             (mkLightState 0 NONE 0 0 0)
                             (mkLightState 0 NONE 0 0 0)) [])
            (mkArray3 (mkLightState 0 NONE 0 0 0)
                      (mkLightState 0x00FF00 TIMED 100 300 0)
                      (mkLightState 0 NONE 0 0 0))
            _) _ _)).
  - reflexivity.
  - reflexivity.
  - reflexivity.
Defined.

(** C6.  Control-node write sequence of [setRgbLight].  The update
    first writes blink = 0 on blue, green, red.  In the blinking case,
    and only then, it goes through the channels in the order blue,
    green, red of their names and writes for each lut_flags, start_idx,
    duty_pcts, pause_lo, pause_hi, ramp_step_ms, the start indices being
    0, 17, 34, each 16 + 1 above the one before; it then writes blink
    again on each channel, now with the channel's intensity.  In the
    static case, which covers a zero on or off duration, it writes one
    plain brightness per channel instead and touches no look-up table
    node. *)
Theorem rgb_write_sequence (state : LightState) (index : nat) (h : Hal)
    (a : array3 LightState) :
  at_put (mLightStates h) index state = Some a ->
  let s := stateToUse a in
  let t := rampTiming (onMs s) (offMs s) in
  let blinking := (0 <? onMs s) && (0 <? offMs s) in
  let emitted :=
    ([ (makeLedPath "blue" "blink", VInt 0);
       (makeLedPath "green" "blink", VInt 0);
       (makeLedPath "red" "blink", VInt 0) ]
     ++ (if blinking then
           rampWritesOf "blue" 0 (blueOf s) t
           ++ rampWritesOf "green" (0 + (kRampSteps + 1)) (greenOf s) t
           ++ rampWritesOf "red" (17 + (kRampSteps + 1)) (redOf s) t
           ++ [ (makeLedPath "blue" "blink", VInt (blueOf s));
                (makeLedPath "green" "blink", VInt (greenOf s));
                (makeLedPath "red" "blink", VInt (redOf s)) ]
         else
           [ (makeLedPath "blue" "brightness", VInt (blueOf s));
             (makeLedPath "green" "brightness", VInt (greenOf s));
             (makeLedPath "red" "brightness", VInt (redOf s)) ]))%list in
  setRgbLight state index h = Some (tt, mkHal a (written h ++ emitted))
  /\ (onMs s = 0 \/ offMs s = 0 -> blinking = false)
  /\ (blinking = false ->
        forallb (fun w => negb (isLutPath (fst w))) emitted = true)
  /\ (blinking = true ->
        map fst (filter (fun w => isLutPath (fst w)) emitted)
          = flat_map (fun led => map (makeLedPath led)
              ["lut_flags"; "start_idx"; "duty_pcts"; "pause_lo"; "pause_hi";
               "ramp_step_ms"])
              ["blue"; "green"; "red"])
  /\ String.ltb "blue" "green" = true
  /\ String.ltb "green" "red" = true.
Proof.
  intros Hput s t blinking emitted.
  pose proof (setRgbLight_run state index h a Hput) as Hrun.
  fold s in Hrun. unfold rgbSequence in Hrun. fold blinking t in Hrun.
  split; [|split; [|split; [|split; [|split]]]].
  - rewrite Hrun. unfold emitted. destruct blinking; reflexivity.
  - unfold blinking. intros [-> | ->]; [reflexivity|].
    apply andb_false_iff. right. reflexivity.
  - intros Hb. unfold emitted. rewrite Hb. reflexivity.
  - intros Hb. unfold emitted. rewrite Hb. reflexivity.
  - reflexivity.
  - reflexivity.
Qed.

Lemma rgb_write_sequence_witness :
  setRgbLight (mkLightState 0x00FF8001 TIMED 240 100 0) 1
    (mkHal (mkArray3 (mkLightState 0 NONE 0 0 0)
                     (mkLightState 0 NONE 0 0 0)
                     (mkLightState 0 NONE 0 0 0)) [])
  = Some (tt,
      mkHal (mkArray3 (mkLightState 0 NONE 0 0 0)
                      (mkLightState 0x00FF8001 TIMED 240 100 0)
                      (mkLightState 0 NONE 0 0 0))
        [ ("/sys/class/leds/blue/blink", VInt 0);
          ("/sys/class/leds/green/blink", VInt 0);
          ("/sys/class/leds/red/blink", VInt 0);
          ("/sys/class/leds/blue/lut_flags", VInt 95);
          ("/sys/class/leds/blue/start_idx", VInt 0);
          ("/sys/class/leds/blue/duty_pcts",
           VStr "0,0,0,0,0,0,0,0,1,1,1,1,1,1,1,1,2");
          ("/sys/class/leds/blue/pause_lo", VInt (-140));
          ("/sys/class/leds/blue/pause_hi", VInt 0);
          ("/sys/class/leds/blue/ramp_step_ms", VInt 15);
          ("/sys/class/leds/green/lut_flags", VInt 95);
          ("/sys/class/leds/green/start_idx", VInt 17);
          ("/sys/class/leds/green/duty_pcts",
           VStr "0,16,32,48,64,80,96,112,128,144,160,176,192,208,224,240,257");
          ("/sys/class/leds/green/pause_lo", VInt (-140));
          ("/sys/class/leds/green/pause_hi", VInt 0);
          ("/sys/class/leds/green/ramp_step_ms", VInt 15);
          ("/sys/class/leds/red/lut_flags", VInt 95);
          ("/sys/class/leds/red/start_idx", VInt 34);
          ("/sys/class/leds/red/duty_pcts",
           VStr "0,32,64,96,128,160,192,224,256,288,320,352,384,416,448,480,512");
          ("/sys/class/leds/red/pause_lo", VInt (-140));
          ("/sys/class/leds/red/pause_hi", VInt 0);
          ("/sys/class/leds/red/ramp_step_ms", VInt 15);
          ("/sys/class/leds/blue/blink", VInt 1);
          ("/sys/class/leds/green/blink", VInt 128);
          ("/sys/class/leds/red/blink", VInt 255) ]).
Proof.
  refine (proj1 (rgb_write_sequence
            (mkLightState 0x00FF8001 TIMED 240 100 0) 1
            (mkHal (mkArray3 (mkLightState 0 NONE 0 0 0)
                             (mkLightState 0 NONE 0 0 0)
                             (mkLightState 0 NONE 0 0 0)) [])
            (mkArray3 (mkLightState 0 NONE 0 0 0)
                      (mkLightState 0x00FF8001 TIMED 240 100 0)
                      (mkLightState 0 NONE 0 0 0))
            _)).
  reflexivity.
Defined.

(** C10.  The pause-lo value can be negative.  When the active state
    is Timed with an on duration of at least 240 and an off duration
    strictly between 0 and 240, the timing is computed on the max-step
    branch, pause-lo is [off - 16*15], a negative number, and that
    number is what the update writes on the pause_lo node of each of
    the three channels.  For on = 240 and off = 100 it is -140. *)
Theorem pause_lo_negative (state : LightState) (index : nat) (h : Hal)
    (a : array3 LightState) :
  at_put (mLightStates h) index state = Some a ->
  let s := stateToUse a in
  flashMode s = TIMED ->
  240 <= onMs s ->
  0 < offMs s < 240 ->
  rampTiming (onMs s) (offMs s)
    = {| stepDuration := kRampMaxStepDurationMs;
         pauseHi := onMs s - 16 * 15;
         pauseLo := offMs s - 16 * 15 |}
  /\ offMs s - 16 * 15 < 0
  /\ (exists h',
        setRgbLight state index h = Some (tt, h')
        /\ forall led, In led ["blue"; "green"; "red"] ->
             In (makeLedPath led "pause_lo", VInt (offMs s - 16 * 15))
                (written h'))
  /\ pauseLo (rampTiming 240 100) = -140.
Proof.
  intros Hput s Hmode Hon Hoff.
  pose proof (onMs_in_range s) as Ron. pose proof (offMs_in_range s) as Roff.
  assert (Ht : rampTiming (onMs s) (offMs s)
               = mkTiming (offMs s - 240) (onMs s - 240) 15)
    by (apply rampTiming_long; [assumption|assumption|lia|lia]).
  split; [exact Ht|]. split; [lia|]. split; [|reflexivity].
  eexists. split.
  - apply (setRgbLight_run state index h a Hput).
  - fold s. unfold rgbSequence.
    destruct (Z.ltb_spec 0 (onMs s)); [|lia].
    destruct (Z.ltb_spec 0 (offMs s)); [|lia].
    cbn [andb written]. rewrite Ht. change (16 * 15) with 240.
    intros led Hled. apply in_or_app. right.
    unfold blinkSequence, rampWritesOf. cbn [pauseLo].
    cbn in Hled. destruct Hled as [<-|[<-|[<-|[]]]]; cbn; tauto.
Qed.

Lemma pause_lo_negative_witness :
  rampTiming 240 100
    = {| stepDuration := kRampMaxStepDurationMs;
         pauseHi := 240 - 16 * 15;
         pauseLo := 100 - 16 * 15 |}.
Proof.
  refine (proj1 (pause_lo_negative
            (mkLightState 0x00FF8001 TIMED 240 100 0) 1
            (mkHal (mkArray3 (mkLightState 0 NONE 0 0 0)
                             (mkLightState 0 NONE 0 0 0)
                             (mkLightState 0 NONE 0 0 0)) [])
            (mkArray3 (mkLightState 0 NONE 0 0 0)
                      (mkLightState 0x00FF8001 TIMED 240 100 0)
                      (mkLightState 0 NONE 0 0 0))
            _ _ _ _)).
  - reflexivity.
  - reflexivity.
  - cbn. lia.
  - cbn. lia.
Defined.

(* ================================================================= *)
(** ** The duty ramp *)

Lemma sameInts_eq (l1 l2 : list Z) : sameInts l1 l2 = true -> l1 = l2.
Proof.
  revert l2. induction l1 as [|x r1 IH]; intros [|y r2]; cbn; try discriminate.
  - reflexivity.
  - intros H. apply andb_true_iff in H. destruct H as [Hxy Hr].
    apply Z.eqb_eq in Hxy. subst y. f_equal. now apply IH.
Qed.

(** The text agrees with the sequence at each of the 256 brightness
    values a channel can take. *)
Lemma dutyText_checked :
  forallb (fun n => dutyTextAgrees (Z.of_nat n)) (seq 0 256) = true.
Proof. vm_compute. reflexivity. Qed.

Lemma dutyText_agrees (b : Z) : 0 <= b <= 255 -> dutyTextAgrees b = true.
Proof.
  intros Hb. pose proof dutyText_checked as H.
  rewrite forallb_forall in H. specialize (H (Z.to_nat b)).
  rewrite Z2Nat.id in H by lia. apply H. apply in_seq. lia.
Qed.

Lemma map_seq_sorted (f : nat -> Z) (start len : nat) :
  (forall i j, (i <= j)%nat -> f i <= f j) ->
  StronglySorted Z.le (map f (seq start len)).
Proof.
  intros Hmono. revert start. induction len as [|len IH]; intros start; cbn.
  - constructor.
  - constructor; [apply IH|].
    apply Forall_forall. intros y Hy. apply in_map_iff in Hy.
    destruct Hy as (k & <- & Hk). apply in_seq in Hk. apply Hmono. lia.
Qed.

Lemma dutyEntry_arith (b : Z) (i : nat) :
  0 <= b <= 255 -> (i <= 16)%nat ->
  dutyEntry b (Z.of_nat i) = Z.quot (Z.of_nat i * 512 * b) (255 * 16).
Proof.
  intros Hb Hi. unfold dutyEntry, Int32.div, Int32.mul.
  change (Int32.wrap (255 * kRampSteps)) with (255 * 16).
  assert (0 <= Z.of_nat i <= 16) by lia.
  rewrite (wrap_small (Z.of_nat i * 512)) by int_range.
  rewrite (wrap_small (Z.of_nat i * 512 * b)) by (unfold Int32.min_int, Int32.max_int; nia).
  apply wrap_small.
  assert (0 <= Z.of_nat i * 512 * b <= 2088960) by nia.
  assert (0 <= Z.quot (Z.of_nat i * 512 * b) (255 * 16) <= Z.of_nat i * 512 * b).
  { rewrite Z.quot_div_nonneg by lia. Z.div_mod_to_equations. lia. }
  int_range.
Qed.

(** C3.  Duty-cycle ramp encoding.  For a brightness [b] in [0, 255]
    the text written on duty_pcts is the comma-separated decimal
    rendering of a sequence of exactly 17 numbers; number [i], for [i]
    from 0 to 16, is the loop's [i * 512 * b / (255 * 16)] with
    truncating division; the sequence never decreases, starts with 0
    and ends with [512 * b / 255]. *)
Theorem duty_ramp_encoding (b : Z) :
  0 <= b <= 255 ->
  getScaledDutyPercent b
    = String.concat "," (map to_string (encodeDutyRamp b))
  /\ decodeDutyPcts (getScaledDutyPercent b) = Some (encodeDutyRamp b)
  /\ List.length (encodeDutyRamp b) = 17%nat
  /\ (forall i, (i <= 16)%nat ->
        nth i (encodeDutyRamp b) 0 = dutyEntry b (Z.of_nat i)
        /\ dutyEntry b (Z.of_nat i) = Z.quot (Z.of_nat i * 512 * b) (255 * 16))
  /\ StronglySorted Z.le (encodeDutyRamp b)
  /\ hd 0 (encodeDutyRamp b) = 0
  /\ last (encodeDutyRamp b) 0 = Z.quot (512 * b) 255.
Proof.
  intros Hb. pose proof (dutyText_agrees b Hb) as Hagree.
  unfold dutyTextAgrees in Hagree. apply andb_true_iff in Hagree.
  destruct Hagree as [Htext Hread].
  split; [now apply String.eqb_eq|].
  split.
  { destruct (decodeDutyPcts (getScaledDutyPercent b)) as [l|]; [|discriminate].
    f_equal. now apply sameInts_eq. }
  split; [reflexivity|].
  split.
  { intros i Hi. rewrite dutyEntry_arith by assumption. split; [|reflexivity].
    unfold encodeDutyRamp.
    set (f := fun k : nat => Z.quot (Z.of_nat k * 512 * b) (255 * 16)).
    rewrite (nth_indep _ 0 (f 0%nat)) by (rewrite length_map, length_seq; lia).
    rewrite map_nth. rewrite seq_nth by lia. reflexivity. }
  split.
  { unfold encodeDutyRamp. apply map_seq_sorted. intros i j Hij.
    apply Z.quot_le_mono; [lia|nia]. }
  split.
  { reflexivity. }
  unfold encodeDutyRamp. cbn [seq map last].
  replace (Z.of_nat 16 * 512 * b) with (512 * b * 16) by lia.
  apply Z.quot_mul_cancel_r; lia.
Qed.

Lemma duty_ramp_encoding_witness :
  getScaledDutyPercent 128
    = String.concat "," (map to_string (encodeDutyRamp 128)).
Proof.
  refine (proj1 (duty_ramp_encoding 128 _)). lia.
Defined.

(* ================================================================= *)
(** ** The backlight *)



(** The scaling step in plain arithmetic, as long as the product fits. *)
Lemma scaleBrightness_arith (m v : Z) :
  0 <= m <= 8454661 -> 0 < v <= 255 -> m <> 255 ->
  scaleBrightness m v = Z.quot ((m - 1) * (v - 1)) 254 + 1.
Proof.
  intros Hm Hv Hne. unfold scaleBrightness.
  destruct (Z.ltb_spec 0 v); [|lia].
  destruct (Z.eqb_spec m 255); [lia|]. cbn [andb negb].
  unfold Int32.add, Int32.div, Int32.mul, Int32.sub.
  rewrite (wrap_small (m - 1)) by int_range.
  rewrite (wrap_small (v - 1)) by int_range.
  assert (Hp : -254 <= (m - 1) * (v - 1) <= 2147483640) by nia.
  rewrite (wrap_small ((m - 1) * (v - 1))) by int_range.
  assert (Hq : -1 <= Z.quot ((m - 1) * (v - 1)) 254 <= 8454660).
  { generalize dependent ((m - 1) * (v - 1)). intros p Hp.
    Z.to_euclidean_division_equations. lia. }
  rewrite (wrap_small (Z.quot _ 254)) by int_range.
  apply wrap_small. int_range.
Qed.




(* ================================================================= *)
(** ** The dispatcher *)

Lemma sorted_perm_eq (rank : Z -> Z) (l1 l2 : list Z) :
  StronglySorted (fun a b => rank a < rank b) l1 ->
  StronglySorted (fun a b => rank a < rank b) l2 ->
  Permutation l1 l2 -> l1 = l2.
Proof.
  revert l2. induction l1 as [|a r1 IH]; intros l2 S1 S2 P.
  - apply Permutation_nil in P. now subst.
  - destruct l2 as [|b r2].
    + symmetry in P. apply Permutation_nil in P. discriminate.
    + inversion S1 as [|? ? S1' A1]; subst. inversion S2 as [|? ? S2' A2]; subst.
      rewrite Forall_forall in A1, A2.
      assert (Hab : a = b).
      { assert (Ha : In a (b :: r2)) by (apply (Permutation_in _ P); now left).
        assert (Hb : In b (a :: r1))
          by (apply (Permutation_in _ (Permutation_sym P)); now left).
        destruct Ha as [Ha|Ha]; [now symmetry|].
        destruct Hb as [Hb|Hb]; [assumption|].
        specialize (A1 b Hb). specialize (A2 a Ha). lia. }
      subst b. f_equal. apply IH; try assumption.
      now apply Permutation_cons_inv in P.
Qed.

Lemma registration_sorted_iff (E : TypeEnum) (rank : Z -> Z) :
  StronglySorted (fun a b => rank a < rank b) (registrationOrder E)
  <-> rank (ATTENTION E) < rank (BACKLIGHT E)
      /\ rank (BACKLIGHT E) < rank (BATTERY E)
      /\ rank (BATTERY E) < rank (BUTTONS E)
      /\ rank (BUTTONS E) < rank (NOTIFICATIONS E).
Proof.
  unfold registrationOrder. split.
  - intros S.
    inversion S as [|? ? S1 A1]; subst. inversion S1 as [|? ? S2 A2]; subst.
    inversion S2 as [|? ? S3 A3]; subst. inversion S3 as [|? ? S4 A4]; subst.
    rewrite Forall_forall in *.
    repeat split; [apply A1|apply A2|apply A3|apply A4]; now left.
  - intros (H1 & H2 & H3 & H4).
    repeat (constructor; [|repeat (constructor; try lia)]). constructor.
Qed.

Lemma handlers_return (sysfs : Sysfs) (state : LightState) (h : Hal) :
  (exists h', setRgbLight state 0 h = Some (tt, h'))
  /\ (exists h', setRgbLight state 1 h = Some (tt, h'))
  /\ (exists h', setRgbLight state 2 h = Some (tt, h'))
  /\ (exists h', setBacklight sysfs state h = Some (tt, h'))
  /\ (exists h', setButtonBacklight state h = Some (tt, h')).
Proof.
  repeat split; try (eexists; apply setRgbLight_run; reflexivity);
    eexists; reflexivity.
Qed.

(** C7, as the code has it.  [getSupportedTypes] always succeeds,
    changes nothing, and returns each of the five registered types
    exactly once, in the order in which the handler map visits its
    keys.  That order is the registration order Attention, Backlight,
    Battery, Buttons, Notifications exactly when the map ranks the five
    keys in that order; a map ordered by the enumerator values does so
    only if the interface numbers them in that order. *)
Theorem supported_types_in_map_order (E : TypeEnum) (sysfs : Sysfs)
    (rank : Z -> Z) (h : Hal) :
  (forall x y, rank x = rank y -> x = y) ->
  NoDup (registrationOrder E) ->
  exists types,
    getSupportedTypes E sysfs rank h = Some (types, h)
    /\ Permutation (registrationOrder E) types
    /\ NoDup types
    /\ StronglySorted (fun a b => rank a < rank b) types
    /\ (types = registrationOrder E
        <-> rank (ATTENTION E) < rank (BACKLIGHT E)
            /\ rank (BACKLIGHT E) < rank (BATTERY E)
            /\ rank (BATTERY E) < rank (BUTTONS E)
            /\ rank (BUTTONS E) < rank (NOTIFICATIONS E)).
Proof.
  intros Hinj Hdistinct. exists (keys (mLights E sysfs rank)).
  pose proof (registry_keys E sysfs rank Hinj Hdistinct) as Hperm.
  pose proof (registry_ordered E sysfs rank) as Hsorted.
  split; [unfold getSupportedTypes; now rewrite collect_keys|].
  split; [exact Hperm|].
  split; [now apply (Permutation_NoDup Hperm)|].
  split; [exact Hsorted|].
  rewrite <- registration_sorted_iff. split.
  - intros <-. exact Hsorted.
  - intros Hreg. apply (sorted_perm_eq rank); [exact Hsorted|exact Hreg|].
    now symmetry.
Qed.

Lemma supported_types_in_map_order_witness :
  exists types,
    getSupportedTypes lightsV2_0 (fun _ => None) byValue
      (mkHal (mkArray3 (mkLightState 0 NONE 0 0 0)
                       (mkLightState 0 NONE 0 0 0)
                       (mkLightState 0 NONE 0 0 0)) [])
    = Some (types,
            mkHal (mkArray3 (mkLightState 0 NONE 0 0 0)
                            (mkLightState 0 NONE 0 0 0)
                            (mkLightState 0 NONE 0 0 0)) [])
    /\ Permutation (registrationOrder lightsV2_0) types.
Proof.
  destruct (supported_types_in_map_order lightsV2_0 (fun _ => None) byValue
              (mkHal (mkArray3 (mkLightState 0 NONE 0 0 0)
                               (mkLightState 0 NONE 0 0 0)
                               (mkLightState 0 NONE 0 0 0)) []))
    as (types & Hrun & Hperm & _).
  - intros x y Hxy. exact Hxy.
  - unfold registrationOrder, lightsV2_0; cbn. distinct_values.
  - exists types. split; [exact Hrun|exact Hperm].
Defined.

(** C7 as stated fails for a handler map ordered by the enumerator
    values under the numbering of the 2.0 lights interface: the types
    come back as Backlight, Buttons, Battery, Notifications, Attention,
    which is not the registration order. *)
Lemma supported_types_counterexample :
  getSupportedTypes lightsV2_0 (fun _ => None) byValue
    (mkHal (mkArray3 (mkLightState 0 NONE 0 0 0)
                     (mkLightState 0 NONE 0 0 0)
                     (mkLightState 0 NONE 0 0 0)) [])
  = Some ([BACKLIGHT lightsV2_0; BUTTONS lightsV2_0; BATTERY lightsV2_0;
           NOTIFICATIONS lightsV2_0; ATTENTION lightsV2_0],
          mkHal (mkArray3 (mkLightState 0 NONE 0 0 0)
                          (mkLightState 0 NONE 0 0 0)
                          (mkLightState 0 NONE 0 0 0)) [])
  /\ [BACKLIGHT lightsV2_0; BUTTONS lightsV2_0; BATTERY lightsV2_0;
      NOTIFICATIONS lightsV2_0; ATTENTION lightsV2_0]
     <> registrationOrder lightsV2_0.
Proof.
  split; [reflexivity|]. unfold registrationOrder. cbn. discriminate.
Qed.

(** C8.  [setLight] on a type with no registered handler returns
    LIGHT_NOT_SUPPORTED and leaves the stored states and the write log
    as they were.  [setLight] on a registered type runs the handler
    bound to that type, to its end, and returns SUCCESS with the state
    the handler left.  No other status is returned. *)
Theorem setLight_status (E : TypeEnum) (sysfs : Sysfs) (rank : Z -> Z)
    (type : Z) (state : LightState) (h : Hal) :
  (forall x y, rank x = rank y -> x = y) ->
  NoDup (registrationOrder E) ->
  (~ In type (registrationOrder E) ->
     find (visitsBefore rank) type (mLights E sysfs rank) = None
     /\ setLight E sysfs rank type state h = Some (LIGHT_NOT_SUPPORTED, h))
  /\ (In type (registrationOrder E) ->
        exists handler h',
          find (visitsBefore rank) type (mLights E sysfs rank) = Some handler
          /\ handler state h = Some (tt, h')
          /\ setLight E sysfs rank type state h = Some (SUCCESS, h')
          /\ (type = ATTENTION E -> handler = fun s => setRgbLight s 0)
          /\ (type = BACKLIGHT E -> handler = fun s => setBacklight sysfs s)
          /\ (type = BATTERY E -> handler = fun s => setRgbLight s 2)
          /\ (type = BUTTONS E -> handler = fun s => setButtonBacklight s)
          /\ (type = NOTIFICATIONS E -> handler = fun s => setRgbLight s 1))
  /\ (forall status h',
        setLight E sysfs rank type state h = Some (status, h') ->
        (status = SUCCESS /\ In type (registrationOrder E))
        \/ (status = LIGHT_NOT_SUPPORTED /\ ~ In type (registrationOrder E)
            /\ h' = h)).
Proof.
  intros Hinj Hdistinct.
  pose proof (registry_keys E sysfs rank Hinj Hdistinct) as Hperm.
  destruct (registry_bindings E sysfs rank Hinj Hdistinct)
    as (Ba & Bb & Bc & Bd & Be). cbn zeta in Ba, Bb, Bc, Bd, Be.
  destruct (handlers_return sysfs state h) as (R0 & R1 & R2 & Rb & Rk).
  assert (Habsent : ~ In type (registrationOrder E) ->
            find (visitsBefore rank) type (mLights E sysfs rank) = None).
  { intros Hnot. apply find_absent; [exact Hinj|].
    intros Hin. apply Hnot.
    now apply (Permutation_in _ (Permutation_sym Hperm)). }
  assert (Hpresent : In type (registrationOrder E) ->
            exists handler h',
              find (visitsBefore rank) type (mLights E sysfs rank) = Some handler
              /\ handler state h = Some (tt, h')
              /\ setLight E sysfs rank type state h = Some (SUCCESS, h')
              /\ (type = ATTENTION E -> handler = fun s => setRgbLight s 0)
              /\ (type = BACKLIGHT E -> handler = fun s => setBacklight sysfs s)
              /\ (type = BATTERY E -> handler = fun s => setRgbLight s 2)
              /\ (type = BUTTONS E -> handler = fun s => setButtonBacklight s)
              /\ (type = NOTIFICATIONS E -> handler = fun s => setRgbLight s 1)).
  { pose proof Hdistinct as Hd. unfold registrationOrder in Hd.
    inversion Hd as [|? ? Na Hd1]; subst. inversion Hd1 as [|? ? Nb Hd2]; subst.
    inversion Hd2 as [|? ? Nc Hd3]; subst. inversion Hd3 as [|? ? Nd Hd4]; subst.
    cbn in Na, Nb, Nc, Nd.
    intros Hin. unfold registrationOrder in Hin. cbn in Hin.
    destruct Hin as [<-|[<-|[<-|[<-|[<-|[]]]]]].
    - destruct R0 as [h' R0]. eexists; exists h'.
      split; [exact Ba|]. split; [exact R0|].
      split; [unfold setLight, bind; rewrite Ba, R0; reflexivity|].
      repeat split; intros Heq; try reflexivity; exfalso; intuition congruence.
    - destruct Rb as [h' Rb]. eexists; exists h'.
      split; [exact Bb|]. split; [exact Rb|].
      split; [unfold setLight, bind; rewrite Bb, Rb; reflexivity|].
      repeat split; intros Heq; try reflexivity; exfalso; intuition congruence.
    - destruct R2 as [h' R2]. eexists; exists h'.
      split; [exact Bc|]. split; [exact R2|].
      split; [unfold setLight, bind; rewrite Bc, R2; reflexivity|].
      repeat split; intros Heq; try reflexivity; exfalso; intuition congruence.
    - destruct Rk as [h' Rk]. eexists; exists h'.
      split; [exact Bd|]. split; [exact Rk|].
      split; [unfold setLight, bind; rewrite Bd, Rk; reflexivity|].
      repeat split; intros Heq; try reflexivity; exfalso; intuition congruence.
    - destruct R1 as [h' R1]. eexists; exists h'.
      split; [exact Be|]. split; [exact R1|].
      split; [unfold setLight, bind; rewrite Be, R1; reflexivity|].
      repeat split; intros Heq; try reflexivity; exfalso; intuition congruence. }
  split; [|split].
  - intros Hnot. split; [now apply Habsent|].
    unfold setLight. now rewrite (Habsent Hnot).
  - exact Hpresent.
  - intros status h' Hrun.
    destruct (in_dec Z.eq_dec type (registrationOrder E)) as [Hin|Hnot].
    + left. destruct (Hpresent Hin) as (handler & h'' & _ & _ & Hs & _).
      rewrite Hs in Hrun. inversion Hrun; subst. now split.
    + right. unfold setLight in Hrun. rewrite (Habsent Hnot) in Hrun.
      inversion Hrun; subst. repeat split. exact Hnot.
Qed.

Lemma setLight_status_witness :
  setLight lightsV2_0 (fun _ => None) byValue 1
    (mkLightState 0xFFFFFF NONE 0 0 0)
    (mkHal (mkArray3 (mkLightState 0 NONE 0 0 0)
                     (mkLightState 0 NONE 0 0 0)
                     (mkLightState 0 NONE 0 0 0)) [])
  = Some (LIGHT_NOT_SUPPORTED,
          mkHal (mkArray3 (mkLightState 0 NONE 0 0 0)
                          (mkLightState 0 NONE 0 0 0)
                          (mkLightState 0 NONE 0 0 0)) []).
Proof.
  refine (proj2 (proj1 (setLight_status lightsV2_0 (fun _ => None) byValue 1
            (mkLightState 0xFFFFFF NONE 0 0 0)
            (mkHal (mkArray3 (mkLightState 0 NONE 0 0 0)
                             (mkLightState 0 NONE 0 0 0)
                             (mkLightState 0 NONE 0 0 0)) [])
            _ _) _)).
  - intros x y Hxy. exact Hxy.
  - unfold registrationOrder, lightsV2_0; cbn. distinct_values.
  - unfold registrationOrder, lightsV2_0; cbn. intuition discriminate.
Defined.

(* ================================================================= *)
(** ** Further properties of the brightness conversion *)

(** X1.  A grey colour keeps its level: when the three channels all
    hold [v], whatever the top byte, [rgbToBrightness] is [v].  The
    three weights add up to 256. *)
Theorem luma_grey (alpha v : Z) (fm : Flash) (on off bm : Z) :
  0 <= v <= 255 ->
  rgbToBrightness
    (mkLightState (alpha * 16777216 + v * 65536 + v * 256 + v) fm on off bm)
  = v.
Proof.
  intros Hv. rewrite rgbToBrightness_arith. unfold redOf, greenOf, blueOf.
  cbn [color].
  assert (Hr : ((alpha * 16777216 + v * 65536 + v * 256 + v) / 65536) mod 256 = v)
    by (Z.div_mod_to_equations; lia).
  assert (Hg : ((alpha * 16777216 + v * 65536 + v * 256 + v) / 256) mod 256 = v)
    by (Z.div_mod_to_equations; lia).
  assert (Hb : (alpha * 16777216 + v * 65536 + v * 256 + v) mod 256 = v)
    by (Z.div_mod_to_equations; lia).
  rewrite Hr, Hg, Hb. Z.div_mod_to_equations. lia.
Qed.

Lemma luma_grey_witness :
  rgbToBrightness
    (mkLightState (255 * 16777216 + 100 * 65536 + 100 * 256 + 100) NONE 0 0 0)
  = 100.
Proof.
  refine (luma_grey 255 100 NONE 0 0 0 _). lia.
Defined.

(** X2.  [rgbToBrightness] is monotone in the channels: raising any of
    red, green, blue never lowers the result. *)
Theorem luma_monotone (s s' : LightState) :
  redOf s <= redOf s' ->
  greenOf s <= greenOf s' ->
  blueOf s <= blueOf s' ->
  rgbToBrightness s <= rgbToBrightness s'.
Proof.
  intros Hr Hg Hb. rewrite !rgbToBrightness_arith.
  apply Z.div_le_mono; lia.
Qed.

Lemma luma_monotone_witness :
  rgbToBrightness (mkLightState 0x102030 NONE 0 0 0)
  <= rgbToBrightness (mkLightState 0x112233 NONE 0 0 0).
Proof.
  refine (luma_monotone (mkLightState 0x102030 NONE 0 0 0)
            (mkLightState 0x112233 NONE 0 0 0) _ _ _);
    vm_compute; discriminate.
Defined.

(** X3.  Dim colours are flattened to zero: [rgbToBrightness] is 0
    exactly when 77*R + 150*G + 29*B stays below 256, and for such a
    colour, black or not, [setBacklight] writes 0 whatever the panel's
    maximum is. *)
Theorem luma_zero_for_dim_colours (sysfs : Sysfs) (state : LightState) (h : Hal) :
  (rgbToBrightness state = 0
   <-> 77 * redOf state + 150 * greenOf state + 29 * blueOf state < 256)
  /\ (77 * redOf state + 150 * greenOf state + 29 * blueOf state < 256 ->
      setBacklight sysfs state h
        = Some (tt, mkHal (mLightStates h)
                      (written h
                       ++ [("/sys/class/leds/lcd-backlight/brightness", VInt 0)]))).
Proof.
  pose proof (redOf_bounds state). pose proof (greenOf_bounds state).
  pose proof (blueOf_bounds state).
  assert (Hiff : rgbToBrightness state = 0
                 <-> 77 * redOf state + 150 * greenOf state + 29 * blueOf state < 256).
  { rewrite rgbToBrightness_arith. split; intros Hz.
    - Z.div_mod_to_equations. lia.
    - apply Z.div_small. lia. }
  split; [exact Hiff|].
  intros Hdim. apply Hiff in Hdim.
  unfold setBacklight, scaleBrightness. rewrite Hdim. reflexivity.
Qed.

Lemma luma_zero_for_dim_colours_witness :
  setBacklight (fun _ => Some 1023) (mkLightState 0x000008 NONE 0 0 0)
    (mkHal (mkArray3 (mkLightState 0 NONE 0 0 0)
                     (mkLightState 0 NONE 0 0 0)
                     (mkLightState 0 NONE 0 0 0)) [])
  = Some (tt, mkHal (mkArray3 (mkLightState 0 NONE 0 0 0)
                              (mkLightState 0 NONE 0 0 0)
                              (mkLightState 0 NONE 0 0 0))
                [("/sys/class/leds/lcd-backlight/brightness", VInt 0)]).
Proof.
  refine (proj2 (luma_zero_for_dim_colours (fun _ => Some 1023)
            (mkLightState 0x000008 NONE 0 0 0)
            (mkHal (mkArray3 (mkLightState 0 NONE 0 0 0)
                             (mkLightState 0 NONE 0 0 0)
                             (mkLightState 0 NONE 0 0 0)) [])) _).
  vm_compute. reflexivity.
Defined.

(* ================================================================= *)
(** ** Further properties of the backlight *)

(** X4.  The backlight value stays within the panel's range: when the
    maximum read is between 1 and 8454661, the value [setBacklight]
    writes lies between 0 and that maximum. *)
Theorem backlight_within_range (sysfs : Sysfs) (state : LightState) :
  1 <= readMaxBrightness sysfs <= 8454661 ->
  0 <= scaleBrightness (readMaxBrightness sysfs) (rgbToBrightness state)
    <= readMaxBrightness sysfs.
Proof.
  intros Hm. pose proof (rgbToBrightness_bounds state) as Hv.
  generalize dependent (rgbToBrightness state). intros v Hv.
  generalize dependent (readMaxBrightness sysfs). intros m Hm.
  destruct (Z.eq_dec v 0) as [Hz|Hnz].
  { rewrite Hz. unfold scaleBrightness. cbn. lia. }
  destruct (Z.eq_dec m 255) as [He|Hne].
  { unfold scaleBrightness. rewrite He. cbn. rewrite andb_false_r. lia. }
  rewrite scaleBrightness_arith by lia.
  assert (0 <= Z.quot ((m - 1) * (v - 1)) 254 <= m - 1).
  { split; [apply Z.quot_pos; nia|].
    apply Z.quot_le_upper_bound; nia. }
  lia.
Qed.

Lemma backlight_within_range_witness :
  0 <= scaleBrightness (readMaxBrightness (fun _ => Some 4095))
         (rgbToBrightness (mkLightState 0x808080 NONE 0 0 0))
    <= readMaxBrightness (fun _ => Some 4095).
Proof.
  refine (backlight_within_range (fun _ => Some 4095)
            (mkLightState 0x808080 NONE 0 0 0) _).
  vm_compute. split; discriminate.
Defined.

(** X5.  The backlight scaling keeps the order of brightness: for a
    maximum between 1 and 8454661, a colour of higher luma is never
    written as a lower backlight value. *)
Theorem backlight_monotone (sysfs : Sysfs) (s s' : LightState) :
  1 <= readMaxBrightness sysfs <= 8454661 ->
  rgbToBrightness s <= rgbToBrightness s' ->
  scaleBrightness (readMaxBrightness sysfs) (rgbToBrightness s)
  <= scaleBrightness (readMaxBrightness sysfs) (rgbToBrightness s').
Proof.
  intros Hm Hle.
  pose proof (rgbToBrightness_bounds s) as Hv.
  pose proof (rgbToBrightness_bounds s') as Hv'.
  generalize dependent (rgbToBrightness s'). intros v' Hle Hv'.
  generalize dependent (rgbToBrightness s). intros v Hle Hv.
  generalize dependent (readMaxBrightness sysfs). intros m Hm.
  destruct (Z.eq_dec m 255) as [He|Hne].
  { unfold scaleBrightness. rewrite He. cbn. rewrite !andb_false_r. lia. }
  destruct (Z.eq_dec v 0) as [Hz|Hnz].
  { rewrite Hz. change (scaleBrightness m 0) with 0.
    destruct (Z.eq_dec v' 0) as [Hz'|Hnz'].
    - rewrite Hz'. reflexivity.
    - rewrite scaleBrightness_arith by lia.
      assert (-1 <= Z.quot ((m - 1) * (v' - 1)) 254).
      { assert (Hp : -254 <= (m - 1) * (v' - 1)) by nia.
        generalize dependent ((m - 1) * (v' - 1)). intros p Hp.
        Z.to_euclidean_division_equations. lia. }
      lia. }
  rewrite !scaleBrightness_arith by lia.
  apply Z.add_le_mono_r. apply Z.quot_le_mono; [lia|nia].
Qed.

Lemma backlight_monotone_witness :
  scaleBrightness (readMaxBrightness (fun _ => Some 4095))
    (rgbToBrightness (mkLightState 0x404040 NONE 0 0 0))
  <= scaleBrightness (readMaxBrightness (fun _ => Some 4095))
       (rgbToBrightness (mkLightState 0x808080 NONE 0 0 0)).
Proof.
  refine (backlight_monotone (fun _ => Some 4095)
            (mkLightState 0x404040 NONE 0 0 0)
            (mkLightState 0x808080 NONE 0 0 0) _ _).
  - vm_compute. split; discriminate.
  - vm_compute. discriminate.
Defined.

(* ================================================================= *)
(** ** Further properties of the dispatcher *)

Lemma emplace_entry_cases {V : Type} (ltb : Z -> Z -> bool) (k : Z) (v : V)
    (m : list (Z * V)) (x : Z * V) :
  In x (emplace ltb k v m) -> x = (k, v) \/ In x m.
Proof.
  induction m as [|[k' v'] rest IH]; cbn.
  - intros [<-|[]]. now left.
  - destruct (ltb k k'); cbn.
    + intros [<-|Hin]; [now left|now right].
    + destruct (ltb k' k); cbn; [|now right].
      intros [<-|Hin]; [right; now left|].
      destruct (IH Hin); [now left|right; now right].
Qed.

Lemma find_some_entry {V : Type} (ltb : Z -> Z -> bool) (k : Z) (v : V)
    (m : list (Z * V)) :
  find ltb k m = Some v -> exists k', In (k', v) m.
Proof.
  induction m as [|[k' v'] rest IH]; cbn; [discriminate|].
  destruct (ltb k k'); [discriminate|].
  destruct (ltb k' k).
  - intros H. destruct (IH H) as [k'' Hin]. exists k''. now right.
  - intros H. inversion H; subst. exists k'. now left.
Qed.

Lemma registered_handler_returns (E : TypeEnum) (sysfs : Sysfs) (rank : Z -> Z)
    (k : Z) (handler : Handler) (state : LightState) (h : Hal) :
  In (k, handler) (mLights E sysfs rank) ->
  exists h', handler state h = Some (tt, h').
Proof.
  destruct (handlers_return sysfs state h) as (R0 & R1 & R2 & Rb & Rk).
  unfold mLights. intros Hin.
  repeat (apply emplace_entry_cases in Hin;
          destruct Hin as [Hin|Hin]; [inversion Hin; subst; assumption|]).
  destruct Hin.
Qed.

Lemma key_has_entry {V : Type} (k : Z) (m : list (Z * V)) :
  In k (keys m) -> exists v, In (k, v) m.
Proof.
  unfold keys. intros Hin. apply in_map_iff in Hin.
  destruct Hin as ([k' v] & Hk & Hin). cbn in Hk. subst k'. now exists v.
Qed.

(** X6.  The buttons light: [setLight] on Buttons returns SUCCESS after
    exactly one write, on the button-backlight brightness node, of the
    luma of the colour, a value between 0 and 255; the stored RGB
    states are not touched. *)
Theorem buttons_single_write (E : TypeEnum) (sysfs : Sysfs) (rank : Z -> Z)
    (state : LightState) (h : Hal) :
  (forall x y, rank x = rank y -> x = y) ->
  NoDup (registrationOrder E) ->
  setLight E sysfs rank (BUTTONS E) state h
    = Some (SUCCESS,
            mkHal (mLightStates h)
              (written h
               ++ [("/sys/class/leds/button-backlight/brightness",
                    VInt (rgbToBrightness state))]))
  /\ 0 <= rgbToBrightness state <= 255.
Proof.
  intros Hinj Hdistinct.
  destruct (registry_bindings E sysfs rank Hinj Hdistinct)
    as (_ & _ & _ & Bk & _). cbn zeta in Bk.
  split; [|apply rgbToBrightness_bounds].
  unfold setLight. rewrite Bk. reflexivity.
Qed.

Lemma buttons_single_write_witness :
  setLight lightsV2_0 (fun _ => None) byValue (BUTTONS lightsV2_0)
    (mkLightState 0xFFFFFF NONE 0 0 0)
    (mkHal (mkArray3 (mkLightState 0 NONE 0 0 0)
                     (mkLightState 0 NONE 0 0 0)
                     (mkLightState 0 NONE 0 0 0)) [])
  = Some (SUCCESS,
          mkHal (mkArray3 (mkLightState 0 NONE 0 0 0)
                          (mkLightState 0 NONE 0 0 0)
                          (mkLightState 0 NONE 0 0 0))
            [("/sys/class/leds/button-backlight/brightness", VInt 255)]).
Proof.
  refine (proj1 (buttons_single_write lightsV2_0 (fun _ => None) byValue
            (mkLightState 0xFFFFFF NONE 0 0 0)
            (mkHal (mkArray3 (mkLightState 0 NONE 0 0 0)
                             (mkLightState 0 NONE 0 0 0)
                             (mkLightState 0 NONE 0 0 0)) [])
            _ _)).
  - intros x y Hxy. exact Hxy.
  - unfold registrationOrder, lightsV2_0; cbn. distinct_values.
Defined.

(** X7.  The two operations of the service agree: a type is in the
    list [getSupportedTypes] returns exactly when [setLight] on it
    returns SUCCESS, and it is missing from the list exactly when
    [setLight] returns LIGHT_NOT_SUPPORTED and changes nothing.  This
    needs no assumption on the enumerator values. *)
Theorem supported_iff_success (E : TypeEnum) (sysfs : Sysfs) (rank : Z -> Z)
    (type : Z) (state : LightState) (h : Hal) :
  (forall x y, rank x = rank y -> x = y) ->
  exists types,
    getSupportedTypes E sysfs rank h = Some (types, h)
    /\ (In type types
        <-> exists h', setLight E sysfs rank type state h = Some (SUCCESS, h'))
    /\ (~ In type types
        <-> setLight E sysfs rank type state h = Some (LIGHT_NOT_SUPPORTED, h)).
Proof.
  intros Hinj. exists (keys (mLights E sysfs rank)).
  split; [unfold getSupportedTypes; now rewrite collect_keys|].
  assert (Hyes : In type (keys (mLights E sysfs rank)) ->
            exists h', setLight E sysfs rank type state h = Some (SUCCESS, h')).
  { intros Hin. destruct (key_has_entry _ _ Hin) as [handler Hentry].
    pose proof (find_ordered rank type handler _
                  (registry_ordered E sysfs rank) Hentry) as Hfind.
    destruct (registered_handler_returns E sysfs rank type handler state h Hentry)
      as [h' Hrun].
    exists h'. unfold setLight, bind. rewrite Hfind, Hrun. reflexivity. }
  assert (Hno : ~ In type (keys (mLights E sysfs rank)) ->
            setLight E sysfs rank type state h = Some (LIGHT_NOT_SUPPORTED, h)).
  { intros Hnot. unfold setLight.
    rewrite (find_absent rank Hinj type _ Hnot). reflexivity. }
  split; split.
  - exact Hyes.
  - intros [h' Hrun].
    destruct (in_dec Z.eq_dec type (keys (mLights E sysfs rank))) as [Hin|Hnot];
      [exact Hin|].
    rewrite (Hno Hnot) in Hrun. discriminate.
  - exact Hno.
  - intros Hrun Hin. destruct (Hyes Hin) as [h' Hrun'].
    rewrite Hrun in Hrun'. discriminate.
Qed.

Lemma supported_iff_success_witness :
  exists types,
    getSupportedTypes lightsV2_0 (fun _ => None) byValue
      (mkHal (mkArray3 (mkLightState 0 NONE 0 0 0)
                       (mkLightState 0 NONE 0 0 0)
                       (mkLightState 0 NONE 0 0 0)) [])
    = Some (types,
            mkHal (mkArray3 (mkLightState 0 NONE 0 0 0)
                            (mkLightState 0 NONE 0 0 0)
                            (mkLightState 0 NONE 0 0 0)) []).
Proof.
  destruct (supported_iff_success lightsV2_0 (fun _ => None) byValue 7
              (mkLightState 0xFFFFFF NONE 0 0 0)
              (mkHal (mkArray3 (mkLightState 0 NONE 0 0 0)
                               (mkLightState 0 NONE 0 0 0)
                               (mkLightState 0 NONE 0 0 0)) []))
    as (types & Hrun & _).
  - intros x y Hxy. exact Hxy.
  - exists types. exact Hrun.
Defined.

(** X8.  [setRgbLight] throws exactly when its slot index is 3 or
    more, and then before any write; the constructor binds only the
    indices 0, 1, 2, so [setLight] itself never throws, whatever the
    type, the state and the enumerator values are. *)
Theorem setLight_never_throws (E : TypeEnum) (sysfs : Sysfs) (rank : Z -> Z)
    (type : Z) (state : LightState) (index : nat) (h : Hal) :
  (setRgbLight state index h = None <-> (3 <= index)%nat)
  /\ exists status h', setLight E sysfs rank type state h = Some (status, h').
Proof.
  split.
  - split.
    + intros Hthrow. destruct (Nat.lt_ge_cases index 3) as [Hlt|Hge]; [|exact Hge].
      destruct (at_put_in_range (mLightStates h) index state Hlt) as [a Ha].
      rewrite (setRgbLight_run _ _ _ _ Ha) in Hthrow. discriminate.
    + intros Hge. apply setRgbLight_throws.
      destruct index as [|[|[|n]]]; try lia. reflexivity.
  - unfold setLight.
    destruct (find (visitsBefore rank) type (mLights E sysfs rank))
      as [handler|] eqn:Hfind.
    + destruct (find_some_entry _ _ _ _ Hfind) as [k Hentry].
      destruct (registered_handler_returns E sysfs rank k handler state h Hentry)
        as [h' Hrun].
      exists SUCCESS, h'. unfold bind. rewrite Hrun. reflexivity.
    + exists LIGHT_NOT_SUPPORTED, h. reflexivity.
Qed.

Lemma setLight_never_throws_witness :
  setRgbLight (mkLightState 0xFFFFFF NONE 0 0 0) 3
    (mkHal (mkArray3 (mkLightState 0 NONE 0 0 0)
                     (mkLightState 0 NONE 0 0 0)
                     (mkLightState 0 NONE 0 0 0)) [])
  = None.
Proof.
  refine (proj2 (proj1 (setLight_never_throws lightsV2_0 (fun _ => None) byValue
            0 (mkLightState 0xFFFFFF NONE 0 0 0) 3
            (mkHal (mkArray3 (mkLightState 0 NONE 0 0 0)
                             (mkLightState 0 NONE 0 0 0)
                             (mkLightState 0 NONE 0 0 0)) []))) _).
  lia.
Defined.

(* ================================================================= *)
(** ** Further properties of the RGB handler *)

Lemma dark_channels (s : LightState) :
  lit s = false -> redOf s = 0 /\ greenOf s = 0 /\ blueOf s = 0.
Proof.
  intros Hdark. apply lit_false in Hdark. rewrite land_low24 in Hdark.
  unfold redOf, greenOf, blueOf.
  repeat split; Z.div_mod_to_equations; lia.
Qed.

(** X9.  Priority.  While the Attention slot is lit, an update of the
    Notifications or Battery slot is stored but the writes it emits
    are those of the Attention state, whatever the new state is.
    Likewise, while Attention is dark and Notifications is lit, an
    update of the Battery slot emits the writes of the Notifications
    state. *)
Theorem higher_priority_masks (state : LightState) (h : Hal) :
  let store := mLightStates h in
  (lit (slot0 store) = true ->
     setRgbLight state 1 h
       = Some (tt, mkHal (mkArray3 (slot0 store) state (slot2 store))
                     (written h ++ rgbSequence (slot0 store)))
     /\ setRgbLight state 2 h
        = Some (tt, mkHal (mkArray3 (slot0 store) (slot1 store) state)
                      (written h ++ rgbSequence (slot0 store))))
  /\ (lit (slot0 store) = false -> lit (slot1 store) = true ->
        setRgbLight state 2 h
          = Some (tt, mkHal (mkArray3 (slot0 store) (slot1 store) state)
                        (written h ++ rgbSequence (slot1 store)))).
Proof.
  intros store. split.
  - intros H0. split.
    + rewrite (setRgbLight_run state 1 h _ eq_refl).
      rewrite stateToUse_find. unfold elements. cbn [List.find slot0 slot1 slot2].
      fold store. rewrite H0. reflexivity.
    + rewrite (setRgbLight_run state 2 h _ eq_refl).
      rewrite stateToUse_find. unfold elements. cbn [List.find slot0 slot1 slot2].
      fold store. rewrite H0. reflexivity.
  - intros H0 H1.
    rewrite (setRgbLight_run state 2 h _ eq_refl).
    rewrite stateToUse_find. unfold elements. cbn [List.find slot0 slot1 slot2].
    fold store. rewrite H0, H1. reflexivity.
Qed.

Lemma higher_priority_masks_witness :
  setRgbLight (mkLightState 0x00FF00 NONE 0 0 0) 1
    (mkHal (mkArray3 (mkLightState 0xFF0000 NONE 0 0 0)
                     (mkLightState 0 NONE 0 0 0)
                     (mkLightState 0 NONE 0 0 0)) [])
  = Some (tt,
      mkHal (mkArray3 (mkLightState 0xFF0000 NONE 0 0 0)
                      (mkLightState 0x00FF00 NONE 0 0 0)
                      (mkLightState 0 NONE 0 0 0))
        ([] ++ rgbSequence (mkLightState 0xFF0000 NONE 0 0 0))).
Proof.
  refine (proj1 (proj1 (higher_priority_masks
            (mkLightState 0x00FF00 NONE 0 0 0)
            (mkHal (mkArray3 (mkLightState 0xFF0000 NONE 0 0 0)
                             (mkLightState 0 NONE 0 0 0)
                             (mkLightState 0 NONE 0 0 0)) [])) _)).
  reflexivity.
Defined.

(** X10.  Switching off.  When, after an update, none of the three
    stored states is lit, the update drives the LED with slot 0's
    state and every channel value it writes is 0: either a plain
    brightness 0 per channel, or, when slot 0 is Timed with positive
    durations, all-zero duty tables followed by blink = 0. *)
Theorem all_dark_switches_off (state : LightState) (index : nat) (h : Hal)
    (a : array3 LightState) :
  at_put (mLightStates h) index state = Some a ->
  lit (slot0 a) = false -> lit (slot1 a) = false -> lit (slot2 a) = false ->
  let t := rampTiming (onMs (slot0 a)) (offMs (slot0 a)) in
  stateToUse a = slot0 a
  /\ getScaledDutyPercent 0 = "0,0,0,0,0,0,0,0,0,0,0,0,0,0,0,0,0"
  /\ setRgbLight state index h
     = Some (tt, mkHal a
         (written h
          ++ blinkOff
          ++ (if (0 <? onMs (slot0 a)) && (0 <? offMs (slot0 a)) then
                rampWritesOf "blue" 0 0 t
                ++ rampWritesOf "green" 17 0 t
                ++ rampWritesOf "red" 34 0 t
                ++ blinkOff
              else
                [ ("/sys/class/leds/blue/brightness", VInt 0);
                  ("/sys/class/leds/green/brightness", VInt 0);
                  ("/sys/class/leds/red/brightness", VInt 0) ]))).
Proof.
  intros Hput D0 D1 D2 t.
  assert (Huse : stateToUse a = slot0 a).
  { rewrite stateToUse_find. unfold elements. cbn [List.find].
    now rewrite D0, D1, D2. }
  split; [exact Huse|]. split; [reflexivity|].
  rewrite (setRgbLight_run state index h a Hput). rewrite Huse.
  destruct (dark_channels _ D0) as (Hr & Hg & Hb).
  unfold rgbSequence, blinkSequence, staticSequence, blinkOn, plainBrightness.
  fold t. rewrite Hr, Hg, Hb.
  destruct ((0 <? onMs (slot0 a)) && (0 <? offMs (slot0 a))); reflexivity.
Qed.

Lemma all_dark_switches_off_witness :
  stateToUse (mkArray3 (mkLightState 0 NONE 0 0 0)
                       (mkLightState 0xFF000000 TIMED 500 500 0)
                       (mkLightState 0 NONE 0 0 0))
  = mkLightState 0 NONE 0 0 0.
Proof.
  refine (proj1 (all_dark_switches_off
            (mkLightState 0xFF000000 TIMED 500 500 0) 1
            (mkHal (mkArray3 (mkLightState 0 NONE 0 0 0)
                             (mkLightState 0x00FF00 NONE 0 0 0)
                             (mkLightState 0 NONE 0 0 0)) [])
            (mkArray3 (mkLightState 0 NONE 0 0 0)
                      (mkLightState 0xFF000000 TIMED 500 500 0)
                      (mkLightState 0 NONE 0 0 0))
            _ _ _ _)); reflexivity.
Defined.

(** X11.  What the timing values add up to.  For positive durations
    the step duration lies between 0 and 15 and pause-hi is never
    negative; the ramp of 16 steps together with pause-hi lasts at
    most the on duration and falls short of it by less than 16 ms,
    exactly matching it from 240 ms on; the step duration is 0 for an
    on duration under 16 ms; and pause-lo is negative exactly when the
    on duration is at least 240 ms and the off duration is below
    240 ms. *)
Theorem timing_adds_up (s : LightState) :
  0 < onMs s -> 0 < offMs s ->
  let t := rampTiming (onMs s) (offMs s) in
  0 <= stepDuration t <= kRampMaxStepDurationMs
  /\ 0 <= pauseHi t
  /\ onMs s - 15 <= kRampSteps * stepDuration t + pauseHi t <= onMs s
  /\ (240 <= onMs s -> kRampSteps * stepDuration t + pauseHi t = onMs s)
  /\ (onMs s < 16 -> stepDuration t = 0)
  /\ (pauseLo t < 0 <-> 240 <= onMs s /\ offMs s < 240).
Proof.
  intros Hon Hoff t.
  pose proof (onMs_in_range s) as Ron. pose proof (offMs_in_range s) as Roff.
  unfold kRampMaxStepDurationMs, kRampSteps.
  destruct (Z_lt_ge_dec (onMs s) 240) as [Hshort|Hlong].
  - assert (Ht : t = mkTiming (offMs s) 0 (Z.quot (onMs s) 16))
      by (apply rampTiming_short; assumption).
    rewrite Ht. cbn [stepDuration pauseHi pauseLo].
    rewrite Z.quot_div_nonneg by lia.
    repeat split; try (Z.div_mod_to_equations; lia).
  - assert (Ht : t = mkTiming (offMs s - 240) (onMs s - 240) 15)
      by (apply rampTiming_long; [assumption|assumption|lia|lia]).
    rewrite Ht. cbn [stepDuration pauseHi pauseLo].
    repeat split; lia.
Qed.

Lemma timing_adds_up_witness :
  0 <= stepDuration (rampTiming 100 300) <= kRampMaxStepDurationMs.
Proof.
  refine (proj1 (timing_adds_up (mkLightState 0x00FF00 TIMED 100 300 0) _ _));
    reflexivity.
Defined.

(** X12.  The durations count only in Timed mode.  For an active state
    whose flash mode is None or Hardware, whatever its two durations,
    the update is the static one: blink = 0 and one plain brightness
    per channel, six writes in all. *)
Theorem untimed_is_static (state : LightState) (index : nat) (h : Hal)
    (a : array3 LightState) :
  at_put (mLightStates h) index state = Some a ->
  flashMode (stateToUse a) <> TIMED ->
  onMs (stateToUse a) = 0
  /\ offMs (stateToUse a) = 0
  /\ setRgbLight state index h
     = Some (tt, mkHal a (written h ++ blinkOff ++ plainBrightness (stateToUse a)))
  /\ List.length (blinkOff ++ plainBrightness (stateToUse a)) = 6%nat.
Proof.
  intros Hput Hmode.
  assert (Hon : onMs (stateToUse a) = 0)
    by (unfold onMs; destruct (flashMode (stateToUse a)); cbn; congruence).
  assert (Hoff : offMs (stateToUse a) = 0)
    by (unfold offMs; destruct (flashMode (stateToUse a)); cbn; congruence).
  split; [exact Hon|]. split; [exact Hoff|]. split; [|reflexivity].
  rewrite (setRgbLight_run state index h a Hput).
  unfold rgbSequence. rewrite Hon, Hoff. reflexivity.
Qed.

Lemma untimed_is_static_witness :
  onMs (stateToUse (mkArray3 (mkLightState 0 NONE 0 0 0)
                             (mkLightState 0x00FF00 HARDWARE 500 500 0)
                             (mkLightState 0 NONE 0 0 0)))
  = 0.
Proof.
  refine (proj1 (untimed_is_static
            (mkLightState 0x00FF00 HARDWARE 500 500 0) 1
            (mkHal (mkArray3 (mkLightState 0 NONE 0 0 0)
                             (mkLightState 0 NONE 0 0 0)
                             (mkLightState 0 NONE 0 0 0)) [])
            (mkArray3 (mkLightState 0 NONE 0 0 0)
                      (mkLightState 0x00FF00 HARDWARE 500 500 0)
                      (mkLightState 0 NONE 0 0 0))
            _ _)).
  - reflexivity.
  - cbn. discriminate.
Defined.

(* ================================================================= *)
(** ** Further properties of the duty tables *)

Lemma duty_decodes (b : Z) :
  0 <= b <= 255 ->
  decodeDutyPcts (getScaledDutyPercent b) = Some (encodeDutyRamp b).
Proof.
  intros Hb. pose proof (dutyText_agrees b Hb) as Hagree.
  unfold dutyTextAgrees in Hagree. apply andb_true_iff in Hagree.
  destruct Hagree as [_ Hread].
  destruct (decodeDutyPcts (getScaledDutyPercent b)) as [l|]; [|discriminate].
  f_equal. now apply sameInts_eq.
Qed.

(** X13.  The duty table stays within the duty unit.  For a channel
    brightness between 0 and 255 the text written on duty_pcts reads
    back as 17 numbers, each between 0 and 512; the last one is 512
    exactly at brightness 255, and at brightness 0 all 17 are 0. *)
Theorem duty_entries_bounded (b : Z) :
  0 <= b <= 255 ->
  exists table,
    decodeDutyPcts (getScaledDutyPercent b) = Some table
    /\ List.length table = 17%nat
    /\ Forall (fun d => 0 <= d <= 512) table
    /\ (last table 0 = 512 <-> b = 255)
    /\ (b = 0 -> table = repeat 0 17).
Proof.
  intros Hb. exists (encodeDutyRamp b).
  split; [now apply duty_decodes|]. split; [reflexivity|].
  split; [|split].
  - unfold encodeDutyRamp. apply Forall_forall. intros d Hd.
    apply in_map_iff in Hd. destruct Hd as (i & <- & Hi). apply in_seq in Hi.
    assert (0 <= Z.of_nat i * 512 * b <= 512 * (255 * 16)) by nia.
    split.
    + apply Z.quot_pos; lia.
    + apply Z.quot_le_upper_bound; lia.
  - unfold encodeDutyRamp. cbn [seq map last].
    replace (Z.of_nat 16 * 512 * b) with (512 * b * 16) by lia.
    rewrite Z.quot_mul_cancel_r by lia.
    rewrite Z.quot_div_nonneg by lia.
    split; intros H; [|subst b; reflexivity].
    Z.div_mod_to_equations. lia.
  - intros ->. reflexivity.
Qed.

Lemma duty_entries_bounded_witness :
  exists table,
    decodeDutyPcts (getScaledDutyPercent 255) = Some table
    /\ List.length table = 17%nat.
Proof.
  destruct (duty_entries_bounded 255) as (table & Hdec & Hlen & _).
  - lia.
  - exists table. split; [exact Hdec|exact Hlen].
Defined.

(** X14.  Layout of the look-up table.  In a blinking update each
    channel's table starts where the one before it ends: the tables
    of blue, green and red have 17 entries each and start at 0, 17 and
    34, so together they fill entries 0 to 50 of the 63 the table has,
    as the comment in the source says. *)
Theorem lut_tables_are_adjacent (state : LightState) (index : nat) (h : Hal)
    (a : array3 LightState) :
  at_put (mLightStates h) index state = Some a ->
  let s := stateToUse a in
  let t := rampTiming (onMs s) (offMs s) in
  0 < onMs s -> 0 < offMs s ->
  exists blue green red,
    decodeDutyPcts (getScaledDutyPercent (blueOf s)) = Some blue
    /\ decodeDutyPcts (getScaledDutyPercent (greenOf s)) = Some green
    /\ decodeDutyPcts (getScaledDutyPercent (redOf s)) = Some red
    /\ setRgbLight state index h
       = Some (tt, mkHal a
           (written h
            ++ blinkOff
            ++ rampWritesOf "blue" 0 (blueOf s) t
            ++ rampWritesOf "green" (0 + Z.of_nat (List.length blue)) (greenOf s) t
            ++ rampWritesOf "red"
                 (0 + Z.of_nat (List.length blue) + Z.of_nat (List.length green))
                 (redOf s) t
            ++ blinkOn s))
    /\ 0 + Z.of_nat (List.length blue) + Z.of_nat (List.length green)
         + Z.of_nat (List.length red) = 51
    /\ 51 <= lutEntries.
Proof.
  intros Hput s t Hon Hoff.
  exists (encodeDutyRamp (blueOf s)), (encodeDutyRamp (greenOf s)),
         (encodeDutyRamp (redOf s)).
  split; [apply duty_decodes, blueOf_bounds|].
  split; [apply duty_decodes, greenOf_bounds|].
  split; [apply duty_decodes, redOf_bounds|].
  split; [|split; [reflexivity|unfold lutEntries; lia]].
  rewrite (setRgbLight_run state index h a Hput). fold s.
  unfold rgbSequence. fold t.
  destruct (Z.ltb_spec 0 (onMs s)); [|lia].
  destruct (Z.ltb_spec 0 (offMs s)); [|lia].
  reflexivity.
Qed.

Lemma lut_tables_are_adjacent_witness :
  exists blue green red,
    decodeDutyPcts (getScaledDutyPercent 1) = Some blue
    /\ decodeDutyPcts (getScaledDutyPercent 128) = Some green
    /\ decodeDutyPcts (getScaledDutyPercent 255) = Some red
    /\ 0 + Z.of_nat (List.length blue) + Z.of_nat (List.length green)
         + Z.of_nat (List.length red) = 51.
Proof.
  destruct (lut_tables_are_adjacent
              (mkLightState 0x00FF8001 TIMED 240 100 0) 1
              (mkHal (mkArray3 (mkLightState 0 NONE 0 0 0)
                               (mkLightState 0 NONE 0 0 0)
                               (mkLightState 0 NONE 0 0 0)) [])
              (mkArray3 (mkLightState 0 NONE 0 0 0)
                        (mkLightState 0x00FF8001 TIMED 240 100 0)
                        (mkLightState 0 NONE 0 0 0)))
    as (blue & green & red & Hb & Hg & Hr & _ & Hsum & _).
  - reflexivity.
  - reflexivity.
  - reflexivity.
  - exists blue, green, red. repeat split; assumption.
Defined.

(* ================================================================= *)
(** ** Further properties of the stored states *)

(** X15.  The store keeps the latest state of each slot.  After two
    updates in a row, the second on the same slot as the first, the
    store is what the second update alone would leave; on different
    slots, the store is the same whichever update comes first.  Each
    update emits the writes of the state that is active once it has
    stored its own. *)
Theorem store_keeps_latest (s1 s2 : LightState) (i j : nat) (h : Hal) :
  (i < 3)%nat -> (j < 3)%nat ->
  exists a1 a2,
    at_put (mLightStates h) i s1 = Some a1
    /\ at_put a1 j s2 = Some a2
    /\ (setRgbLight s1 i ;; setRgbLight s2 j) h
       = Some (tt, mkHal a2 (written h ++ rgbSequence (stateToUse a1)
                                       ++ rgbSequence (stateToUse a2)))
    /\ (i = j -> at_put (mLightStates h) j s2 = Some a2)
    /\ (i <> j ->
          exists b1, at_put (mLightStates h) j s2 = Some b1
                     /\ at_put b1 i s1 = Some a2).
Proof.
  intros Hi Hj.
  destruct (at_put_in_range (mLightStates h) i s1 Hi) as [a1 Ha1].
  destruct (at_put_in_range a1 j s2 Hj) as [a2 Ha2].
  exists a1, a2. split; [exact Ha1|]. split; [exact Ha2|]. split.
  - unfold bind at 1. rewrite (setRgbLight_run s1 i h a1 Ha1).
    rewrite (setRgbLight_run s2 j (mkHal a1 _) a2 Ha2). cbn [written].
    now rewrite <- app_assoc.
  - destruct i as [|[|[|i]]]; try lia; destruct j as [|[|[|j]]]; try lia;
      cbn in Ha1, Ha2; inversion Ha1; subst a1; inversion Ha2; subst a2;
      cbn; (split; [intros; first [reflexivity | discriminate | congruence]|]);
      intros Hne; try congruence; eexists; split; reflexivity.
Qed.

Lemma store_keeps_latest_witness :
  exists a1 a2,
    at_put (mkArray3 (mkLightState 0 NONE 0 0 0)
                     (mkLightState 0 NONE 0 0 0)
                     (mkLightState 0 NONE 0 0 0)) 1
           (mkLightState 0x00FF00 NONE 0 0 0) = Some a1
    /\ at_put a1 1 (mkLightState 0x0000FF NONE 0 0 0) = Some a2.
Proof.
  destruct (store_keeps_latest (mkLightState 0x00FF00 NONE 0 0 0)
              (mkLightState 0x0000FF NONE 0 0 0) 1 1
              (mkHal (mkArray3 (mkLightState 0 NONE 0 0 0)
                               (mkLightState 0 NONE 0 0 0)
                               (mkLightState 0 NONE 0 0 0)) []))
    as (a1 & a2 & H1 & H2 & _).
  - lia.
  - lia.
  - exists a1, a2. split; [exact H1|exact H2].
Defined.



(** X17.  The backlight and the RGB LED are independent.  A backlight
    or button update leaves the three stored states alone, so an RGB
    update that follows it stores and emits exactly what it would have
    without it, after the single write of the update before. *)
Theorem backlight_leaves_rgb_alone (sysfs : Sysfs) (sb state : LightState)
    (index : nat) (h : Hal) (a : array3 LightState) :
  at_put (mLightStates h) index state = Some a ->
  setRgbLight state index h
    = Some (tt, mkHal a (written h ++ rgbSequence (stateToUse a)))
  /\ (setBacklight sysfs sb ;; setRgbLight state index) h
     = Some (tt, mkHal a
         (written h
          ++ [("/sys/class/leds/lcd-backlight/brightness",
               VInt (scaleBrightness (readMaxBrightness sysfs)
                                     (rgbToBrightness sb)))]
          ++ rgbSequence (stateToUse a)))
  /\ (setButtonBacklight sb ;; setRgbLight state index) h
     = Some (tt, mkHal a
         (written h
          ++ [("/sys/class/leds/button-backlight/brightness",
               VInt (rgbToBrightness sb))]
          ++ rgbSequence (stateToUse a))).
Proof.
  intros Hput. split; [now apply setRgbLight_run|]. split.
  - unfold bind, setBacklight, set.
    rewrite (setRgbLight_run state index (mkHal (mLightStates h) _) a Hput).
    cbn [written]. now rewrite <- app_assoc.
  - unfold bind, setButtonBacklight, set.
    rewrite (setRgbLight_run state index (mkHal (mLightStates h) _) a Hput).
    cbn [written]. now rewrite <- app_assoc.
Qed.

Lemma backlight_leaves_rgb_alone_witness :
  setRgbLight (mkLightState 0x00FF00 NONE 0 0 0) 1
    (mkHal (mkArray3 (mkLightState 0 NONE 0 0 0)
                     (mkLightState 0 NONE 0 0 0)
                     (mkLightState 0 NONE 0 0 0)) [])
  = Some (tt, mkHal (mkArray3 (mkLightState 0 NONE 0 0 0)
                              (mkLightState 0x00FF00 NONE 0 0 0)
                              (mkLightState 0 NONE 0 0 0))
                ([] ++ rgbSequence
                         (stateToUse
                            (mkArray3 (mkLightState 0 NONE 0 0 0)
                                      (mkLightState 0x00FF00 NONE 0 0 0)
                                      (mkLightState 0 NONE 0 0 0))))).
Proof.
  refine (proj1 (backlight_leaves_rgb_alone (fun _ => None)
            (mkLightState 0xFFFFFF NONE 0 0 0)
            (mkLightState 0x00FF00 NONE 0 0 0) 1
            (mkHal (mkArray3 (mkLightState 0 NONE 0 0 0)
                             (mkLightState 0 NONE 0 0 0)
                             (mkLightState 0 NONE 0 0 0)) [])
            (mkArray3 (mkLightState 0 NONE 0 0 0)
                      (mkLightState 0x00FF00 NONE 0 0 0)
                      (mkLightState 0 NONE 0 0 0))
            _)).
  reflexivity.
Defined.

(** X18.  The luma of a colour lies between its smallest and its
    largest channel. *)
Theorem luma_between_channels (s : LightState) :
  Z.min (redOf s) (Z.min (greenOf s) (blueOf s))
    <= rgbToBrightness s
    <= Z.max (redOf s) (Z.max (greenOf s) (blueOf s)).
Proof.
  rewrite rgbToBrightness_arith.
  pose proof (redOf_bounds s). pose proof (greenOf_bounds s).
  pose proof (blueOf_bounds s).
  split.
  - apply Z.div_le_lower_bound; lia.
  - apply Z.lt_succ_r. apply Z.div_lt_upper_bound; lia.
Qed.
